(** * Content validation and build optimisation utilities of the portfolio site

    A shallow embedding of
    - [src/utils/buildOptimization.ts] (asset classification, content-hash
      detection, minification heuristics, build report and validation),
    - [src/utils/dataLoader.ts] (YAML loading, average rating),
    - the content validator (validateYamlFile, validateMarkdownFile,
      extractFrontmatter, validateAllContent, detectContentChanges).

    Strings are [String.string]; regular expressions are matched over the
    character list [list_ascii_of_string s] by small backtracking matchers
    that follow the JavaScript regex semantics of each pattern.  Characters
    are ASCII: JavaScript's [\s] also covers Unicode spaces, which the model
    leaves out.  JavaScript numbers that are ratios of counts are compared as
    exact rationals (cross-multiplied), which agrees with IEEE doubles for all
    lengths below 2^50. *)

From Stdlib Require Import String Ascii List Bool ZArith QArith Qround Lia Lqa.
From Stdlib Require Import Numbers.DecimalString.
From Stdlib Require Import Sorting.Permutation Sorting.Sorted.
Import ListNotations.
Open Scope string_scope.
Open Scope list_scope.
Open Scope nat_scope.
Set Warnings "-register-all".

(* ------------------------------------------------------------------ *)
(** ** Characters and strings *)

Module Chars.

Definition code (c : ascii) : nat := nat_of_ascii c.

Definition in_range (lo hi : nat) (c : ascii) : bool :=
  Nat.leb lo (code c) && Nat.leb (code c) hi.

(** [String.prototype.toLowerCase] on ASCII letters. *)
Definition lower (c : ascii) : ascii :=
  if in_range 65 90 c then ascii_of_nat (code c + 32) else c.

Definition upper (c : ascii) : ascii :=
  if in_range 97 122 c then ascii_of_nat (code c - 32) else c.

(** The regex class [[a-f0-9]] under the [i] flag. *)
Definition is_hex_ci (c : ascii) : bool :=
  in_range 48 57 c || in_range 97 102 c || in_range 65 70 c.

(** The regex class [[._-]]. *)
Definition is_hash_sep (c : ascii) : bool :=
  (c =? ".")%char || (c =? "_")%char || (c =? "-")%char.

(** The regex class [\s], restricted to ASCII: tab, LF, VT, FF, CR, space. *)
Definition is_ws (c : ascii) : bool :=
  in_range 9 13 c || (c =? " ")%char.

Definition nl : ascii := ascii_of_nat 10.

End Chars.

Definition to_lower (s : string) : string :=
  string_of_list_ascii (map Chars.lower (list_ascii_of_string s)).

Definition to_upper (s : string) : string :=
  string_of_list_ascii (map Chars.upper (list_ascii_of_string s)).

(** [s] begins with [p]. *)
Fixpoint starts_with_l (p s : list ascii) : bool :=
  match p, s with
  | [], _ => true
  | c :: p', d :: s' => (c =? d)%char && starts_with_l p' s'
  | _ :: _, [] => false
  end.

(** [a.includes(b)] on strings: [b] occurs as a contiguous block of [a]. *)
Fixpoint includes_l (s p : list ascii) : bool :=
  starts_with_l p s ||
  match s with
  | [] => false
  | _ :: s' => includes_l s' p
  end.

Definition includes (s p : string) : bool :=
  includes_l (list_ascii_of_string s) (list_ascii_of_string p).

Definition starts_with (s p : string) : bool :=
  starts_with_l (list_ascii_of_string p) (list_ascii_of_string s).

(** Decimal rendering of a natural number, as [String(n)]. *)
Definition string_of_nat (n : nat) : string :=
  NilEmpty.string_of_uint (Nat.to_uint n).

(* ------------------------------------------------------------------ *)
(** ** Node's [path] module (POSIX) *)

Module Path.

(** [path.join(a, b)] for a non-empty directory [a] and a relative [b]
    without [.] or [..] segments. *)
Definition join (a b : string) : string := a ++ "/" ++ b.

Fixpoint drop_while (f : ascii -> bool) (l : list ascii) : list ascii :=
  match l with
  | [] => []
  | c :: l' => if f c then drop_while f l' else l
  end.

Fixpoint take_while (f : ascii -> bool) (l : list ascii) : list ascii :=
  match l with
  | [] => []
  | c :: l' => if f c then c :: take_while f l' else []
  end.

Definition is_slash (c : ascii) : bool := (c =? "/")%char.
Definition is_dot (c : ascii) : bool := (c =? ".")%char.

(** The last path component, trailing slashes ignored (as [extname] and
    [basename] scan it). *)
Definition last_part (p : string) : list ascii :=
  rev (take_while (fun c => negb (is_slash c))
         (drop_while is_slash (rev (list_ascii_of_string p)))).

Definition basename (p : string) : string := string_of_list_ascii (last_part p).

(** [path.extname(p)]: from the last [.] of the last component to its end;
    empty when that component has no dot, when its last dot is its first
    character (".bashrc"), or when it is "..". *)
Definition extname (p : string) : string :=
  let part := last_part p in
  let rpart := rev part in
  (* characters after the last dot, reversed, and what precedes it *)
  let ext_rev := take_while (fun c => negb (is_dot c)) rpart in
  let before_rev := drop_while (fun c => negb (is_dot c)) rpart in
  match before_rev with
  | [] => ""                                   (* no dot *)
  | _ :: pre_rev =>
      if (length pre_rev =? 0)%nat then ""      (* dot is the first char *)
      else if forallb is_dot pre_rev && (length ext_rev =? 0)%nat
              && (length pre_rev =? 1)%nat then ""  (* the name ".." *)
      else string_of_list_ascii ("." :: rev ext_rev)%char
  end.

End Path.

(* ------------------------------------------------------------------ *)
(** ** JavaScript numbers produced by dividing counts *)

(** The result of [a / b] on non-negative integer counts: a finite
    rational, [NaN] ([0 / 0]) or [Infinity] ([a / 0] with [a > 0]). *)
Inductive jsnum := Fin (q : Q) | NaN | PosInf.

Definition js_div (a b : nat) : jsnum :=
  match b with
  | O => if (a =? 0)%nat then NaN else PosInf
  | S _ => Fin (Z.of_nat a # Pos.of_nat b)%Q
  end.

(** [x < y]; every comparison with [NaN] is false. *)
Definition js_lt (x y : jsnum) : bool :=
  match x, y with
  | Fin a, Fin b => negb (Qle_bool b a)
  | Fin _, PosInf => true
  | _, _ => false
  end.

(* ------------------------------------------------------------------ *)
(** ** [src/utils/buildOptimization.ts] *)

Module Build.

Inductive asset_type := Html | Css | Js | Image | Other.

Definition asset_type_eqb (a b : asset_type) : bool :=
  match a, b with
  | Html, Html | Css, Css | Js, Js | Image, Image | Other, Other => true
  | _, _ => false
  end.

Record AssetInfo := {
  path : string;
  size : nat;
  type : asset_type;
  hasHash : bool
}.

(** [getAssetType(filePath)] *)
Definition getAssetType (filePath : string) : asset_type :=
  let ext := to_lower (Path.extname filePath) in
  if (ext =? ".html")%string || (ext =? ".htm")%string then Html
  else if (ext =? ".css")%string then Css
  else if (ext =? ".js")%string || (ext =? ".mjs")%string then Js
  else if existsb (String.eqb ext)
            [".jpg"; ".jpeg"; ".png"; ".gif"; ".webp"; ".svg"; ".avif"; ".ico"]
  then Image
  else Other.

(** The tail [[a-f0-9]{8,}\.] of [/[._-][a-f0-9]{8,}\./i], [n] hex digits
    already consumed: either stop the repetition here (at least 8) and read
    the dot, or read one more hex digit. *)
Fixpoint hex_run_dot (n : nat) (s : list ascii) : bool :=
  match s with
  | [] => false
  | c :: r =>
      (Nat.leb 8 n && Path.is_dot c) || (Chars.is_hex_ci c && hex_run_dot (S n) r)
  end.

(** [RegExp.prototype.test]: the unanchored pattern matches at some position. *)
Fixpoint hash_search (s : list ascii) : bool :=
  match s with
  | [] => false
  | c :: r => (Chars.is_hash_sep c && hex_run_dot 0 r) || hash_search r
  end.

(** [hasContentHash(filename)] *)
Definition hasContentHash (filename : string) : bool :=
  hash_search (list_ascii_of_string filename).

Fixpoint count_char (c : ascii) (s : list ascii) : nat :=
  match s with
  | [] => 0
  | d :: r => (if (c =? d)%char then 1 else 0) + count_char c r
  end.

(** [(content.match(/\s{2,}/g) || []).length]: the global greedy match finds
    every maximal whitespace run of length at least 2 exactly once; [run]
    is the length of the run being scanned. *)
Fixpoint ws_runs_from (run : nat) (s : list ascii) : nat :=
  match s with
  | [] => if Nat.leb 2 run then 1 else 0
  | c :: r =>
      if Chars.is_ws c then ws_runs_from (S run) r
      else (if Nat.leb 2 run then 1 else 0) + ws_runs_from 0 r
  end.

Definition ws_runs (s : list ascii) : nat := ws_runs_from 0 s.

(** [(content.match(/\/\*|\*\/|\/\//g) || []).length]: scanning left to right,
    a match consumes two characters, a failed position one. *)
Fixpoint comment_markers (s : list ascii) : nat :=
  match s with
  | a :: t =>
      match t with
      | b :: r =>
          if ((a =? "/")%char && (b =? "*")%char)
             || ((a =? "*")%char && (b =? "/")%char)
             || ((a =? "/")%char && (b =? "/")%char)
          then S (comment_markers r)
          else comment_markers t
      | [] => 0
      end
  | [] => 0
  end.

(** [isHtmlMinified(content)]; [0.02] is [1/50]. *)
Definition isHtmlMinified (content : string) : bool :=
  let s := list_ascii_of_string content in
  let newlineCount := count_char Chars.nl s in
  let contentLength := length s in
  if Nat.ltb contentLength 200 then true
  else js_lt (js_div newlineCount contentLength) (Fin (1 # 50)%Q).

(** [isCssMinified(content)]; [0.001] is [1/1000]. *)
Definition isCssMinified (content : string) : bool :=
  let s := list_ascii_of_string content in
  let whitespaceRatio := js_div (ws_runs s) (length s) in
  js_lt whitespaceRatio (Fin (1 # 1000)%Q).

(** [isJsMinified(content)]; [0.005] is [1/200]. *)
Definition isJsMinified (content : string) : bool :=
  let s := list_ascii_of_string content in
  let newlineCount := count_char Chars.nl s in
  let commentCount := comment_markers s in
  let contentLength := length s in
  if Nat.ltb contentLength 100 then true
  else js_lt (js_div (newlineCount + commentCount) contentLength) (Fin (1 # 200)%Q).

(** A build-output tree: regular files with their text, and directories.
    Names within one directory are distinct, as on a file system. *)
Inductive entry :=
| EFile (name : string) (content : string)
| EDir (name : string) (children : list entry).

(** [path.relative(baseDir, path.join(dir, name))] *)
Definition rel (dir name : string) : string :=
  if (dir =? "")%string then name else dir ++ "/" ++ name.

(** [collectFiles(dir)] walking a directory whose path relative to the
    root is [reldir].  Each asset is returned with the text that
    [fs.readFileSync(path.join(outputDir, asset.path))] later reads back. *)
Fixpoint collect_entry (reldir : string) (e : entry) : list (AssetInfo * string) :=
  match e with
  | EFile name content =>
      [({| path := rel reldir name;
           size := length (list_ascii_of_string content);
           type := getAssetType name;
           hasHash := hasContentHash name |}, content)]
  | EDir name children =>
      (fix go (l : list entry) : list (AssetInfo * string) :=
         match l with
         | [] => []
         | e' :: l' => collect_entry (rel reldir name) e' ++ go l'
         end) children
  end.

Fixpoint collect_entries (reldir : string) (l : list entry) : list (AssetInfo * string) :=
  match l with
  | [] => []
  | e :: l' => collect_entry reldir e ++ collect_entries reldir l'
  end.

(** [collectFiles(outputDir)]: [None] is a directory that does not exist. *)
Definition collectFiles (dir : option (list entry)) : list (AssetInfo * string) :=
  match dir with
  | None => []
  | Some es => collect_entries "" es
  end.

(** A sampling loop [for (const asset of files.slice(0, 3)) { if (!check(..))
    { flag = false; break; } }] started with [flag = true]. *)
Fixpoint sample_loop (check : string -> bool) (contents : list string) : bool :=
  match contents with
  | [] => true
  | c :: rest => if negb (check c) then false else sample_loop check rest
  end.

Record Summary := {
  totalFiles : nat; totalSize : nat;
  htmlFiles : nat; cssFiles : nat; jsFiles : nat; imageFiles : nat; otherFiles : nat;
  hashedAssets : nat;
  averageHtmlSize : nat; averageCssSize : nat; averageJsSize : nat
}.

Record OptimizationChecks := {
  allAssetsHashed : bool; htmlMinified : bool; cssMinified : bool; jsMinified : bool
}.

Record BuildReport := {
  outputDir : string;
  assets : list AssetInfo;
  summary : Summary;
  optimizationChecks : OptimizationChecks
}.

Definition of_type (t : asset_type) (l : list (AssetInfo * string)) :=
  filter (fun a => asset_type_eqb (type (fst a)) t) l.

Definition sum_sizes (l : list (AssetInfo * string)) : nat :=
  fold_left (fun acc a => acc + size (fst a)) l 0.

(** [Math.round(files.length > 0 ? sum / files.length : 0)] *)
Definition average_size (l : list (AssetInfo * string)) : nat :=
  match length l with
  | O => 0
  | S _ => (2 * sum_sizes l + length l) / (2 * length l)
  end.

(** [generateBuildReport(outputDir)]; [fs_dir] gives the tree at a path.
    The report's timestamp is left out. *)
Definition generateBuildReport (fs_dir : string -> option (list entry)) (outDir : string)
  : BuildReport :=
  let assets := collectFiles (fs_dir outDir) in
  let htmlF := of_type Html assets in
  let cssF := of_type Css assets in
  let jsF := of_type Js assets in
  let htmlMin := sample_loop isHtmlMinified (map snd (firstn 3 htmlF)) in
  let cssMin := sample_loop isCssMinified (map snd (firstn 3 cssF)) in
  let jsMin := sample_loop isJsMinified (map snd (firstn 3 jsF)) in
  let inAssetsFolder :=
    filter (fun a => starts_with (path (fst a)) "assets/"
                     && (asset_type_eqb (type (fst a)) Css
                         || asset_type_eqb (type (fst a)) Js)) assets in
  let allHashed :=
    (length inAssetsFolder =? 0)%nat || forallb (fun a => hasHash (fst a)) inAssetsFolder in
  {| outputDir := outDir;
     assets := map fst assets;
     summary := {| totalFiles := length assets;
                   totalSize := sum_sizes assets;
                   htmlFiles := length htmlF;
                   cssFiles := length cssF;
                   jsFiles := length jsF;
                   imageFiles := length (of_type Image assets);
                   otherFiles := length (of_type Other assets);
                   hashedAssets := length (filter (fun a => hasHash (fst a)) assets);
                   averageHtmlSize := average_size htmlF;
                   averageCssSize := average_size cssF;
                   averageJsSize := average_size jsF |};
     optimizationChecks := {| allAssetsHashed := allHashed;
                              htmlMinified := htmlMin;
                              cssMinified := cssMin;
                              jsMinified := jsMin |} |}.

Record BuildValidation := { valid : bool; report : BuildReport; errors : list string }.

Definition err_hashes := "Not all CSS/JS assets in the assets folder have content hashes".
Definition err_html := "HTML files do not appear to be minified".
Definition err_css := "CSS files do not appear to be minified".
Definition err_js := "JavaScript files do not appear to be minified".

(** [validateBuildOptimization(outputDir)]: the error list is built by four
    successive [errors.push] calls. *)
Definition validateBuildOptimization (fs_dir : string -> option (list entry)) (outDir : string)
  : BuildValidation :=
  let rep := generateBuildReport fs_dir outDir in
  let oc := optimizationChecks rep in
  let errs :=
    (if negb (allAssetsHashed oc) then [err_hashes] else [])
    ++ (if negb (htmlMinified oc) then [err_html] else [])
    ++ (if negb (cssMinified oc) then [err_css] else [])
    ++ (if negb (jsMinified oc) then [err_js] else []) in
  {| valid := (length errs =? 0)%nat; report := rep; errors := errs |}.

End Build.

(* ------------------------------------------------------------------ *)
(** ** Values, exceptions, Zod and the file system *)

Module Content.

Local Open Scope string_scope.

(** JavaScript values produced by [yaml.load]. *)
Inductive jsval :=
| JUndefined
| JNull
| JBool (b : bool)
| JNum (q : Q)
| JStr (s : string)
| JArr (items : list jsval)
| JObj (fields : list (string * jsval)).

(** [!!v]: [undefined], [null], [false], [0] and [""] are falsy. *)
Definition truthy (v : jsval) : bool :=
  match v with
  | JUndefined | JNull => false
  | JBool b => b
  | JNum q => negb (Qeq_bool q 0)
  | JStr s => negb (s =? "")%string
  | JArr _ | JObj _ => true
  end.

(** A computation that returns a value or throws an [Error] with a message. *)
Inductive exn_or (A : Type) := Ret (a : A) | Raise (message : string).
Arguments Ret {A} a.
Arguments Raise {A} message.

(** Zod issues: [path] segments are object keys or array indices; [details]
    are the issue-specific fields placed between [code] and [path]
    (e.g. [expected] and [received]). *)
Inductive path_seg := PKey (k : string) | PIdx (i : nat).

Record ZodIssue := {
  issue_code : string;
  issue_details : list (string * string);
  issue_path : list path_seg;
  issue_message : string
}.

(** [schema.safeParse(v)]: a schema is its parse function. *)
Inductive safe_parse := Parsed (data : jsval) | Issues (issues : list ZodIssue).

Definition Schema := jsval -> safe_parse.

Definition seg_string (p : path_seg) : string :=
  match p with PKey k => k | PIdx i => string_of_nat i end.

Definition nl_s : string := String Chars.nl EmptyString.

(** The double-quote character. *)
Definition quote_c : ascii := ascii_of_nat 34.

Definition quote_s : string := String quote_c EmptyString.

(** JSON string literal, escaping quote, backslash and control characters. *)
Definition json_char (c : ascii) : string :=
  if (c =? quote_c)%char then "\" ++ quote_s
  else if (c =? "\")%char then "\\"
  else if (c =? Chars.nl)%char then "\n"
  else if (c =? ascii_of_nat 13)%char then "\r"
  else if (c =? ascii_of_nat 9)%char then "\t"
  else if Nat.ltb (Chars.code c) 32 then
    "\u00" ++ String (ascii_of_nat (48 + Chars.code c / 16))
                 (String (let d := Chars.code c mod 16 in
                          ascii_of_nat (if Nat.ltb d 10 then 48 + d else 87 + d)) "")
  else String c "".

Definition json_string (s : string) : string :=
  quote_s ++ String.concat "" (map json_char (list_ascii_of_string s)) ++ quote_s.

Fixpoint indent (n : nat) : string :=
  match n with O => "" | S n' => "  " ++ indent n' end.

Definition json_seg (p : path_seg) : string :=
  match p with PKey k => json_string k | PIdx i => string_of_nat i end.

Definition json_path (lvl : nat) (p : list path_seg) : string :=
  match p with
  | [] => "[]"
  | _ => "[" ++ nl_s
         ++ String.concat ("," ++ nl_s) (map (fun s => indent (S lvl) ++ json_seg s) p)
         ++ nl_s ++ indent lvl ++ "]"
  end.

Definition json_issue (i : ZodIssue) : string :=
  let field k v := indent 2 ++ json_string k ++ ": " ++ v in
  indent 1 ++ "{" ++ nl_s
  ++ String.concat ("," ++ nl_s)
       ([field "code" (json_string (issue_code i))]
        ++ map (fun kv => field (fst kv) (json_string (snd kv))) (issue_details i)
        ++ [field "path" (json_path 2 (issue_path i));
            field "message" (json_string (issue_message i))])
  ++ nl_s ++ indent 1 ++ "}".

(** [ZodError.prototype.message]: [JSON.stringify(issues, replacer, 2)]. *)
Definition zod_error_message (issues : list ZodIssue) : string :=
  match issues with
  | [] => "[]"
  | _ => "[" ++ nl_s ++ String.concat ("," ++ nl_s) (map json_issue issues) ++ nl_s ++ "]"
  end.

(** A directory entry as returned by [fs.readdirSync(dir, {withFileTypes})]. *)
Record Dirent := { d_name : string; d_isFile : bool }.

(** A snapshot of the file system: [fs.existsSync], [fs.readFileSync]
    (which may throw, e.g. on a directory), [fs.readdirSync], and
    [path.resolve] against the working directory. *)
Record FS := {
  fs_exists : string -> bool;
  fs_read : string -> exn_or string;
  fs_readdir : string -> list Dirent;
  fs_resolve : string -> string
}.

End Content.

(* ------------------------------------------------------------------ *)
(** ** The content validator *)

Module Validator.

Import Content.
Local Open Scope string_scope.

Record ValidationResult := { valid : bool; file : string; errors : option (list string) }.

Record ContentValidationReport := {
  success : bool;
  results : list ValidationResult;
  total : nat;
  valid_count : nat;
  invalid_count : nat
}.

(** The frontmatter pattern [/^---\s*\n([\s\S]*?)\n---/] (no [m] flag, so
    [^] is the start of the content).  [lazy_body acc s]: the lazy group
    [([\s\S]*?)] has read [rev acc]; first try to end it with [\n---], then
    extend it by one character. *)
Definition close_delim : list ascii := [Chars.nl; "-"; "-"; "-"]%char.

Fixpoint lazy_body (acc : list ascii) (s : list ascii) : option (list ascii) :=
  if starts_with_l close_delim s then Some (rev acc)
  else match s with
       | [] => None
       | c :: r => lazy_body (c :: acc) r
       end.

(** [\s*\n] followed by the group: the greedy [\s*] first tries to take one
    more whitespace character, and gives it back if the rest fails. *)
Fixpoint ws_nl_body (s : list ascii) : option (list ascii) :=
  match s with
  | [] => None
  | c :: r =>
      match (if Chars.is_ws c then ws_nl_body r else None) with
      | Some g => Some g
      | None => if (c =? Chars.nl)%char then lazy_body [] r else None
      end
  end.

(** [content.match(frontmatterRegex)], returning [match[1]]. *)
Definition open_delim : list ascii := ["-"; "-"; "-"]%char.

Definition frontmatter_match (content : string) : option string :=
  let s := list_ascii_of_string content in
  if starts_with_l open_delim s
  then option_map string_of_list_ascii (ws_nl_body (skipn 3 s))
  else None.

(** [formatZodErrors(error)] *)
Definition formatZodErrors (issues : list ZodIssue) : list string :=
  map (fun err =>
         let p := String.concat "." (map seg_string (issue_path err)) in
         if (p =? "")%string then issue_message err else p ++ ": " ++ issue_message err)
      issues.

Definition no_frontmatter_msg := "No frontmatter found in markdown file".

Section WithYaml.

(** [yaml.load] of js-yaml: a value, or a thrown [YAMLException]. *)
Variable yaml_load : string -> exn_or jsval.

(** [extractFrontmatter(content)]: [null] when the pattern does not match or
    [yaml.load] throws. *)
Definition extractFrontmatter (content : string) : jsval :=
  match frontmatter_match content with
  | None => JNull
  | Some body =>
      match yaml_load body with
      | Ret v => v
      | Raise _ => JNull
      end
  end.

Definition from_safe_parse (filePath : string) (r : safe_parse) : ValidationResult :=
  match r with
  | Parsed _ => {| valid := true; file := filePath; errors := None |}
  | Issues l => {| valid := false; file := filePath; errors := Some (formatZodErrors l) |}
  end.

Definition not_found (filePath : string) : ValidationResult :=
  {| valid := false; file := filePath; errors := Some ["File not found: " ++ filePath] |}.

Definition parse_error (filePath msg : string) : ValidationResult :=
  {| valid := false; file := filePath; errors := Some ["Parse error: " ++ msg] |}.

(** [validateYamlFile(filePath, schema)] *)
Definition validateYamlFile (fs : FS) (filePath : string) (schema : Schema)
  : ValidationResult :=
  if negb (fs_exists fs filePath) then not_found filePath
  else match fs_read fs filePath with
       | Raise m => parse_error filePath m
       | Ret content =>
           match yaml_load content with
           | Raise m => parse_error filePath m
           | Ret parsed => from_safe_parse filePath (schema parsed)
           end
       end.

(** [validateMarkdownFile(filePath, schema)] *)
Definition validateMarkdownFile (fs : FS) (filePath : string) (schema : Schema)
  : ValidationResult :=
  if negb (fs_exists fs filePath) then not_found filePath
  else match fs_read fs filePath with
       | Raise m => parse_error filePath m
       | Ret content =>
           let frontmatter := extractFrontmatter content in
           if negb (truthy frontmatter)
           then {| valid := false; file := filePath; errors := Some [no_frontmatter_msg] |}
           else from_safe_parse filePath (schema frontmatter)
       end.

(** [getFilesInDirectory(dir, extensions)] *)
Definition getFilesInDirectory (fs : FS) (dir : string) (extensions : list string)
  : list string :=
  if negb (fs_exists fs dir) then []
  else flat_map (fun e =>
                   if d_isFile e
                      && existsb (String.eqb (to_lower (Path.extname (d_name e)))) extensions
                   then [Path.join dir (d_name e)] else [])
                (fs_readdir fs dir).

(** The schemas of the four YAML data files and of product entries. *)
Variables resumeFileSchema testimonialsFileSchema repositoriesFileSchema
          publicationsFileSchema productSchema : Schema.

Definition yamlValidations (basePath : string) : list (string * Schema) :=
  [(Path.join basePath "src/data/resume.yaml", resumeFileSchema);
   (Path.join basePath "src/data/testimonials.yaml", testimonialsFileSchema);
   (Path.join basePath "src/data/repositories.yaml", repositoriesFileSchema);
   (Path.join basePath "src/data/publications.yaml", publicationsFileSchema)].

Definition productsDir (basePath : string) : string :=
  Path.join basePath "src/data/products".

(** [validateAllContent(basePath)]; the report's timestamp is left out. *)
Definition validateAllContent (fs : FS) (basePath : string) : ContentValidationReport :=
  let yamlResults :=
    flat_map (fun ps => if fs_exists fs (fst ps)
                        then [validateYamlFile fs (fst ps) (snd ps)] else [])
             (yamlValidations basePath) in
  let productFiles := getFilesInDirectory fs (productsDir basePath) [".md"; ".mdx"] in
  let productResults :=
    flat_map (fun f => if (Path.basename f =? ".gitkeep")%string then []
                       else [validateMarkdownFile fs f productSchema])
             productFiles in
  let results := (yamlResults ++ productResults)%list in
  let vcount := length (filter (fun r => valid r) results) in
  let icount := length (filter (fun r => negb (valid r)) results) in
  {| success := (icount =? 0)%nat;
     results := results;
     total := length results;
     valid_count := vcount;
     invalid_count := icount |}.

End WithYaml.

(** Content manifests: the own enumerable properties of a
    [Record<string, number>] in [Object.entries] order; keys are distinct. *)
Definition manifest := list (string * Q).

(** Properties every plain object inherits from [Object.prototype]. *)
Definition object_prototype_keys : list string :=
  ["constructor"; "__defineGetter__"; "__defineSetter__"; "hasOwnProperty";
   "__lookupGetter__"; "__lookupSetter__"; "isPrototypeOf";
   "propertyIsEnumerable"; "toString"; "valueOf"; "__proto__"; "toLocaleString"].

Definition own_key (m : manifest) (k : string) : bool :=
  existsb (fun kv => (fst kv =? k)%string) m.

(** [k in m]: an own property, or one inherited from [Object.prototype]. *)
Definition js_in (k : string) (m : manifest) : bool :=
  own_key m k || existsb (String.eqb k) object_prototype_keys.

(** [m[k]] when it is a number: own properties only (inherited ones are
    functions or objects, and absent ones are [undefined]). *)
Definition own_value (m : manifest) (k : string) : option Q :=
  option_map snd (find (fun kv => (fst kv =? k)%string) m).

(** [oldManifest[file] !== newTime] *)
Definition strict_neq (v : option Q) (t : Q) : bool :=
  match v with
  | Some q => negb (Qeq_bool q t)
  | None => true
  end.

Record Changes := { added : list string; modified : list string; deleted : list string }.

(** One iteration of the loop over [Object.entries(newManifest)]. *)
Definition added_modified_step (oldM : manifest) (acc : list string * list string)
  (kv : string * Q) : list string * list string :=
  let '(addedL, modifiedL) := acc in
  let '(file, newTime) := kv in
  if negb (js_in file oldM) then ((addedL ++ [file])%list, modifiedL)
  else if strict_neq (own_value oldM file) newTime then (addedL, (modifiedL ++ [file])%list)
  else (addedL, modifiedL).

(** One iteration of the loop over [Object.keys(oldManifest)]. *)
Definition deleted_step (newM : manifest) (acc : list string) (file : string) : list string :=
  if negb (js_in file newM) then (acc ++ [file])%list else acc.

(** [detectContentChanges(oldManifest, newManifest)] *)
Definition detectContentChanges (oldM newM : manifest) : Changes :=
  let '(addedL, modifiedL) := fold_left (added_modified_step oldM) newM ([], []) in
  let deletedL := fold_left (deleted_step newM) (map fst oldM) [] in
  {| added := addedL; modified := modifiedL; deleted := deletedL |}.

End Validator.

(* ------------------------------------------------------------------ *)
(** ** [src/utils/dataLoader.ts] *)

Module DataLoader.

Import Content.
Local Open Scope string_scope.

Record DataLoadResult := { success : bool; data : option jsval; error : option string }.

Definition failed_to_load (m : string) : DataLoadResult :=
  {| success := false; data := None; error := Some ("Failed to load file: " ++ m) |}.

(** [loadYamlFile(filePath, schema)]: the [try] block, with every throwing
    step ([readFileSync], [yaml.load]) routed to the [catch] block. *)
Definition loadYamlFile (yaml_load : string -> exn_or jsval) (fs : FS)
  (filePath : string) (schema : Schema) : DataLoadResult :=
  let absolutePath := fs_resolve fs filePath in
  if negb (fs_exists fs absolutePath) then
    {| success := false; data := None; error := Some ("File not found: " ++ filePath) |}
  else
    match fs_read fs absolutePath with
    | Raise m => failed_to_load m
    | Ret fileContent =>
        match yaml_load fileContent with
        | Raise m => failed_to_load m
        | Ret parsedYaml =>
            match schema parsedYaml with
            | Issues l =>
                {| success := false; data := None;
                   error := Some ("Schema validation failed: " ++ zod_error_message l) |}
            | Parsed d => {| success := true; data := Some d; error := None |}
            end
        end
    end.

Record Testimonial := { courseSlug : string; rating : Q }.

(** [Math.round(x)]: the nearest integer, halves rounded up. *)
Definition js_round (x : Q) : Z := Qfloor (x + (1 # 2)).

(** [calculateAverageRating(testimonials, courseSlug)]; [None] is [null]. *)
Definition calculateAverageRating (testimonials : list Testimonial) (slug : string)
  : option Q :=
  let courseTestimonials := filter (fun t => (courseSlug t =? slug)%string) testimonials in
  if (length courseTestimonials =? 0)%nat then None
  else
    let sum := fold_left (fun acc t => acc + rating t)%Q courseTestimonials 0%Q in
    Some (inject_Z (js_round (sum / inject_Z (Z.of_nat (length courseTestimonials)) * 10)) / 10)%Q.

(** [getTestimonialsForCourse(testimonials, courseSlug)], for any element
    type with a [courseSlug] field. *)
Definition getTestimonialsForCourse {T : Type} (slug_of : T -> string)
  (testimonials : list T) (slug : string) : list T :=
  filter (fun t => (slug_of t =? slug)%string) testimonials.

End DataLoader.

(* ------------------------------------------------------------------ *)
(** ** Content manifests ([generateContentManifest] and its helpers) *)

Module Manifest.

Import Content.
Local Open Scope string_scope.

(** A directory entry of [fs.readdirSync(dir, {withFileTypes: true})]:
    a directory with its own entries, a regular file, or anything else
    (a symbolic link, a socket, ...), which is neither. *)
Inductive node :=
| NDir (name : string) (children : list node)
| NFile (name : string)
| NOther (name : string).

(** A snapshot of the file system: [fs.existsSync], the entries of a
    directory ([None] for a path that is not a directory, where
    [readdirSync] throws), and [fs.statSync(p).mtimeMs] ([None] when
    [statSync] throws).  The entries of a directory listed by [tree_dir]
    are the ones [readdirSync] returns when the walk reaches it. *)
Record TreeFS := {
  tree_exists : string -> bool;
  tree_dir : string -> option (list node);
  stat_mtime : string -> option Q
}.





(** [hasFileChanged(filePath, sinceTimestamp)] *)
Definition hasFileChanged (fs : TreeFS) (filePath : string) (sinceTimestamp : Q) : bool :=
  match stat_mtime fs filePath with
  | Some m => negb (Qle_bool m sinceTimestamp)
  | None => false
  end.





End Manifest.

(* ------------------------------------------------------------------ *)
(** ** [renderRepositoryShowcase] (in [src/utils/buildOptimization.ts]) *)

Module Showcase.

Local Open Scope string_scope.

Record Repository := {
  r_name : string; r_description : string; r_url : string;
  r_technologies : list string; r_featured : bool; r_stars : option Q
}.

Record Publication := {
  p_title : string; p_authors : list string; p_venue : string; p_year : Q;
  p_url : option string; p_downloadUrl : option string; p_abstract : option string
}.

(** [arr.sort(compareFn)] (ECMA-262: a stable sort).  For a consistent
    comparator the stable order is unique; this is the stable insertion
    sort: an element goes before an earlier one only when the comparator
    says it is strictly smaller. *)
Fixpoint insert {A : Type} (cmp : A -> A -> Q) (x : A) (l : list A) : list A :=
  match l with
  | [] => [x]
  | y :: l' => if negb (Qle_bool 0 (cmp x y)) then x :: l else y :: insert cmp x l'
  end.

Definition js_sort {A : Type} (cmp : A -> A -> Q) (l : list A) : list A :=
  fold_left (fun acc x => insert cmp x acc) l [].

(** [b.stars || 0] *)
Definition stars_or_0 (r : Repository) : Q :=
  match r_stars r with Some q => q | None => 0 end.

(** The repository comparator: featured first, then by stars, descending. *)
Definition repo_cmp (a b : Repository) : Q :=
  if negb (Bool.eqb (r_featured a) (r_featured b))
  then (if r_featured b then 1 else -1)
  else stars_or_0 b - stars_or_0 a.

(** The publication comparator: newest first. *)
Definition pub_cmp (a b : Publication) : Q := p_year b - p_year a.

(** [!!s] for an optional string. *)
Definition truthy_opt (s : option string) : bool :=
  match s with Some v => negb (v =? "") | None => false end.

Record RenderedRepository := {
  rr_name : string; rr_description : string; rr_url : string; rr_technologies : list string
}.

Record RenderedPublication := {
  rp_title : string; rp_authors : list string; rp_venue : string; rp_year : Q;
  rp_hasViewLink : bool; rp_hasDownloadLink : bool
}.

Definition render_repo (r : Repository) : RenderedRepository :=
  {| rr_name := r_name r; rr_description := r_description r; rr_url := r_url r;
     rr_technologies := r_technologies r |}.

Definition render_pub (p : Publication) : RenderedPublication :=
  {| rp_title := p_title p; rp_authors := p_authors p; rp_venue := p_venue p;
     rp_year := p_year p; rp_hasViewLink := truthy_opt (p_url p);
     rp_hasDownloadLink := truthy_opt (p_downloadUrl p) |}.

(** [renderRepositoryShowcase(repositories, publications)] *)
Definition renderRepositoryShowcase (repositories : list Repository)
  (publications : list Publication) : list RenderedRepository * list RenderedPublication :=
  let sortedRepositories := js_sort repo_cmp repositories in
  let sortedPublications := js_sort pub_cmp publications in
  (map render_repo sortedRepositories, map render_pub sortedPublications).

End Showcase.

(** * Contact-form URLs ([Step 4: Product Detail to Contact Form] and
    [Step 5: Contact Form Pre-population] of buildOptimization.ts)

    A JavaScript string is its list of UTF-16 code units; a byte
    sequence is a list of integers in [0, 255].  The built-ins the code
    calls are embedded after their standards: [encodeURIComponent] after
    ECMA-262 (Encode), [new URL] and [searchParams.get] after the WHATWG
    URL standard (the query state of the URL parser and the
    application/x-www-form-urlencoded parser), with the UTF-8 decoder of
    the WHATWG Encoding standard.  UTF-8 bit distributions (Unicode
    Table 3-6) are written with division and remainder by powers of two:
    [x >> 6] is [x / 64], [x & 0x3F] is [x mod 64], and [0xC0 | y] is
    [0xC0 + y] when [y < 0x40]. *)
Module Uri.

Local Open Scope Z_scope.

Definition in_range (lo hi c : Z) : bool := (lo <=? c) && (c <=? hi).
Definition is_high (c : Z) : bool := in_range 0xD800 0xDBFF c.
Definition is_low (c : Z) : bool := in_range 0xDC00 0xDFFF c.

(** The code units of an ASCII literal. *)
Definition js (s : string) : list Z :=
  map (fun a => Z.of_nat (nat_of_ascii a)) (list_ascii_of_string s).

(** uriUnescaped: uriAlpha, DecimalDigit and uriMark. *)
Definition uri_unescaped (c : Z) : bool :=
  in_range 65 90 c || in_range 97 122 c || in_range 48 57 c ||
  existsb (Z.eqb c) (js "-_.!~*'()").

(** The UTF-8 encoding of a code point (Unicode Table 3-6). *)
Definition utf8_encode (cp : Z) : list Z :=
  if cp <=? 0x7F then [cp]
  else if cp <=? 0x7FF then [0xC0 + cp / 64; 0x80 + cp mod 64]
  else if cp <=? 0xFFFF then
    [0xE0 + cp / 4096; 0x80 + (cp / 64) mod 64; 0x80 + cp mod 64]
  else [0xF0 + cp / 262144; 0x80 + (cp / 4096) mod 64; 0x80 + (cp / 64) mod 64;
        0x80 + cp mod 64].

(** An upper-case hexadecimal digit. *)
Definition hex_digit (d : Z) : Z := if d <? 10 then 48 + d else 55 + d.

(** ["%" + StringPad(hex(b), 2, "0", start)] *)
Definition pct_byte (b : Z) : list Z := [37; hex_digit (b / 16); hex_digit (b mod 16)].

(** UTF16SurrogatePairToCodePoint *)
Definition pair_code_point (lead trail : Z) : Z :=
  (lead - 0xD800) * 0x400 + (trail - 0xDC00) + 0x10000.

(** [encodeURIComponent(s)], i.e. Encode(s, uriUnescaped); [None] is the
    URIError thrown for an unpaired surrogate. *)
Fixpoint encodeURIComponent (s : list Z) : option (list Z) :=
  match s with
  | [] => Some []
  | c :: rest =>
      if uri_unescaped c then option_map (cons c) (encodeURIComponent rest)
      else if is_low c then None
      else if is_high c then
        match rest with
        | d :: rest' =>
            if is_low d then
              option_map (app (flat_map pct_byte (utf8_encode (pair_code_point c d))))
                (encodeURIComponent rest')
            else None
        | [] => None
        end
      else option_map (app (flat_map pct_byte (utf8_encode c))) (encodeURIComponent rest)
  end.

(** [buildContactUrl(productId, productTitle)]; [None] when an
    [encodeURIComponent] call throws. *)
Definition buildContactUrl (productId productTitle : list Z) : option (list Z) :=
  match encodeURIComponent productId,
        encodeURIComponent (js "Training Inquiry: " ++ productTitle) with
  | Some p, Some s => Some (js "/contact?product=" ++ p ++ js "&subject=" ++ s)
  | _, _ => None
  end.

(** The USVString conversion of a JS string: code points, with U+FFFD
    for an unpaired surrogate. *)
Fixpoint to_scalars (s : list Z) : list Z :=
  match s with
  | [] => []
  | c :: rest =>
      if is_high c then
        match rest with
        | d :: rest' => if is_low d then pair_code_point c d :: to_scalars rest'
                        else 0xFFFD :: to_scalars rest
        | [] => [0xFFFD]
        end
      else if is_low c then 0xFFFD :: to_scalars rest
      else c :: to_scalars rest
  end.

(** C0 control or space. *)
Definition c0_or_space (c : Z) : bool := in_range 0 0x20 c.

Fixpoint skip_while (f : Z -> bool) (l : list Z) : list Z :=
  match l with
  | [] => []
  | c :: rest => if f c then skip_while f rest else l
  end.

(** Remove leading and trailing C0 control or space. *)
Definition strip_c0 (s : list Z) : list Z :=
  rev (skip_while c0_or_space (rev (skip_while c0_or_space s))).

(** Remove all ASCII tab or newline. *)
Definition remove_tab_nl (s : list Z) : list Z :=
  filter (fun c => negb ((c =? 9) || (c =? 10) || (c =? 13))) s.

(** The special-query percent-encode set (on bytes). *)
Definition special_query_set (b : Z) : bool :=
  (b <? 0x21) || (0x7E <? b) || existsb (Z.eqb b) [34; 35; 60; 62; 39].

(** Percent-encode after encoding (UTF-8) with the special-query set. *)
Definition query_encode (s : list Z) : list Z :=
  flat_map (fun cp => flat_map (fun b => if special_query_set b then pct_byte b else [b])
                               (utf8_encode cp)) s.

(** The query state, entered at [?]: the buffer runs to [#] or the end. *)
Fixpoint query_buffer (s : list Z) : list Z :=
  match s with
  | [] => []
  | c :: rest => if c =? 35 then [] else c :: query_buffer rest
  end.

(** The path state: [?] starts the query, [#] the fragment. *)
Fixpoint path_state (s : list Z) : option (list Z) :=
  match s with
  | [] => None
  | c :: rest =>
      if c =? 63 then Some (query_encode (query_buffer rest))
      else if c =? 35 then None
      else path_state rest
  end.

(** The query of [new URL(input, 'http://localhost')] (a special base),
    for an input that after the preprocessing starts with [/] not followed
    by [/] or [\]: the relative and relative-slash states go to the path
    state, and the URL's query is [Some q] or null.  Other inputs go
    through the scheme or authority states, which are not embedded: the
    outer [None]. *)
Definition url_query (input : list Z) : option (option (list Z)) :=
  let s := remove_tab_nl (strip_c0 (to_scalars input)) in
  match s with
  | 47 :: c :: _ => if (c =? 47) || (c =? 92) then None else Some (path_state s)
  | [47] => Some None
  | _ => None
  end.

(** Strictly split a byte sequence on a byte. *)
Fixpoint split_on (sep : Z) (l : list Z) : list (list Z) :=
  match l with
  | [] => [[]]
  | c :: rest =>
      if c =? sep then [] :: split_on sep rest
      else match split_on sep rest with
           | s :: ss => (c :: s) :: ss
           | [] => [[c]]
           end
  end.

(** The bytes before the first [sep] and those after it. *)
Fixpoint split_first (sep : Z) (l : list Z) : list Z * list Z :=
  match l with
  | [] => ([], [])
  | c :: rest =>
      if c =? sep then ([], rest)
      else let (a, b) := split_first sep rest in (c :: a, b)
  end.

Definition is_hex (b : Z) : bool := in_range 48 57 b || in_range 65 70 b || in_range 97 102 b.
Definition hex_val (b : Z) : Z := if b <=? 57 then b - 48 else if b <=? 70 then b - 55 else b - 87.

(** Percent-decode a byte sequence. *)
Fixpoint percent_decode (l : list Z) : list Z :=
  match l with
  | [] => []
  | b :: rest =>
      if b =? 37 then
        match rest with
        | h1 :: h2 :: rest' =>
            if is_hex h1 && is_hex h2 then (hex_val h1 * 16 + hex_val h2) :: percent_decode rest'
            else b :: percent_decode rest
        | _ => b :: percent_decode rest
        end
      else b :: percent_decode rest
  end.

(** The state of the UTF-8 decoder. *)
Record dstate := { needed : Z; seen : Z; code_point : Z; lower : Z; upper : Z }.

Definition dinit : dstate :=
  {| needed := 0; seen := 0; code_point := 0; lower := 0x80; upper := 0xBF |}.

(** The decoder's handler for a byte when no byte is needed. *)
Definition lead_step (b : Z) : dstate * list Z :=
  if b <=? 0x7F then (dinit, [b])
  else if in_range 0xC2 0xDF b then
    ({| needed := 1; seen := 0; code_point := b mod 32; lower := 0x80; upper := 0xBF |}, [])
  else if in_range 0xE0 0xEF b then
    ({| needed := 2; seen := 0; code_point := b mod 16;
        lower := if b =? 0xE0 then 0xA0 else 0x80;
        upper := if b =? 0xED then 0x9F else 0xBF |}, [])
  else if in_range 0xF0 0xF4 b then
    ({| needed := 3; seen := 0; code_point := b mod 8;
        lower := if b =? 0xF0 then 0x90 else 0x80;
        upper := if b =? 0xF4 then 0x8F else 0xBF |}, [])
  else (dinit, [0xFFFD]).

(** The decoder's handler for a byte; a byte out of range is an error
    (U+FFFD) and is handled again from the reset state. *)
Definition dstep (st : dstate) (b : Z) : dstate * list Z :=
  if needed st =? 0 then lead_step b
  else if negb (in_range (lower st) (upper st) b) then
    let (st', out) := lead_step b in (st', 0xFFFD :: out)
  else
    let cp := code_point st * 64 + b mod 64 in
    if seen st + 1 =? needed st then (dinit, [cp])
    else ({| needed := needed st; seen := seen st + 1; code_point := cp;
             lower := 0x80; upper := 0xBF |}, []).

(** UTF-8 decode (without BOM), from a decoder state; an unfinished
    sequence at the end is an error. *)
Fixpoint utf8_decode_from (st : dstate) (l : list Z) : list Z :=
  match l with
  | [] => if needed st =? 0 then [] else [0xFFFD]
  | b :: rest => let (st', out) := dstep st b in out ++ utf8_decode_from st' rest
  end.

(** A code point as UTF-16 code units. *)
Definition utf16_encode (cp : Z) : list Z :=
  if cp <=? 0xFFFF then [cp]
  else [0xD800 + (cp - 0x10000) / 0x400; 0xDC00 + (cp - 0x10000) mod 0x400].

(** Replace [+] by space, percent-decode, UTF-8 decode without BOM. *)
Definition decode_component (l : list Z) : list Z :=
  flat_map utf16_encode
    (utf8_decode_from dinit (percent_decode (map (fun b => if b =? 43 then 32 else b) l))).

(** The application/x-www-form-urlencoded parser. *)
Definition urlencoded_parse (input : list Z) : list (list Z * list Z) :=
  map (fun bytes => let (name, value) := split_first 61 bytes in
                    (decode_component name, decode_component value))
      (filter (fun bytes => negb (match bytes with [] => true | _ => false end))
              (split_on 38 input)).

(** [searchParams.get(name)]: the value of the first pair named [name]. *)
Fixpoint params_get (ps : list (list Z * list Z)) (name : list Z) : option (list Z) :=
  match ps with
  | [] => None
  | (n, v) :: rest => if list_eq_dec Z.eq_dec n name then Some v else params_get rest name
  end.

(** [v || undefined] for a string or null. *)
Definition or_undefined (v : option (list Z)) : option (list Z) :=
  match v with Some (_ :: _) => v | _ => None end.

Record ContactParams := { product : option (list Z); subject : option (list Z) }.

(** [parseContactUrlParams(url)]: [None] for an input outside the
    embedded part of the URL parser (see [url_query]). *)
Definition parseContactUrlParams (url : list Z) : option ContactParams :=
  match url_query url with
  | None => None
  | Some q =>
      let ps := match q with
                | Some q => urlencoded_parse (flat_map utf8_encode q)
                | None => []
                end in
      Some {| product := or_undefined (params_get ps (js "product"));
              subject := or_undefined (params_get ps (js "subject")) |}
  end.

Record ContactPrefill := { prefill_subject : list Z; productHidden : list Z }.

(** [prePopulateContactForm({ product, subject })] *)
Definition prePopulateContactForm (params : ContactParams) : ContactPrefill :=
  let productParam := match product params with Some p => p | None => [] end in
  let subjectParam := match subject params with Some s => s | None => [] end in
  {| prefill_subject :=
       match subjectParam with
       | _ :: _ => subjectParam
       | [] => match productParam with
               | _ :: _ => js "Training Inquiry: " ++ productParam
               | [] => []
               end
       end;
     productHidden := productParam |}.

(** A JS string of code units in [0, 0xFFFF] with no unpaired surrogate. *)
Fixpoint well_formed_utf16 (s : list Z) : bool :=
  match s with
  | [] => true
  | c :: rest =>
      in_range 0 0xFFFF c &&
      (if is_low c then false
       else if is_high c then
         match rest with
         | d :: rest' => is_low d && well_formed_utf16 rest'
         | [] => false
         end
       else well_formed_utf16 rest)
  end.

End Uri.

(** * Internal links ([Navigation Functionality] in buildOptimization.ts) *)
Module Navigation.

Local Open Scope string_scope.

Definition VALID_INTERNAL_PATHS : list string :=
  ["/"; "/about"; "/contact"; "/services"; "/terms"; "/privacy"; "/blog"].

(** [path.replace(/\/$/, '')]: drop one final [/]. *)
Definition strip_trailing_slash (path : string) : string :=
  string_of_list_ascii
    (match rev (list_ascii_of_string path) with
     | c :: r => if (c =? "/")%char then rev r else list_ascii_of_string path
     | [] => list_ascii_of_string path
     end).

(** [isValidInternalPath(path)] *)
Definition isValidInternalPath (path : string) : bool :=
  if starts_with path "http://" || starts_with path "https://" then true
  else if starts_with path "#" then true
  else if includes path "/rss.xml" then true
  else
    let normalizedPath := match strip_trailing_slash path with "" => "/" | s => s end in
    if existsb (String.eqb normalizedPath) VALID_INTERNAL_PATHS then true
    else if starts_with normalizedPath "/blog" then true
    else if starts_with normalizedPath "/products" then true
    else false.

End Navigation.

(* ------------------------------------------------------------------ *)
(** ** Readings of the specification's words

    Definitions that follow the specification's wording rather than the
    source, to be compared with the definitions above. *)

Module SpecWords.

Import Content.

(** Splitting on a separator character, as [s.split(sep)]. *)
Fixpoint split_on (sep : ascii) (l : list ascii) : list (list ascii) :=
  match l with
  | [] => [[]]
  | c :: r =>
      let rest := split_on sep r in
      if (c =? sep)%char then [] :: rest
      else match rest with
           | [] => [[c]]
           | w :: ws => (c :: w) :: ws
           end
  end.

(** Reading of the words "[[._-][hex]{8,}.] immediately before the final
    extension": the part before the last dot ends with a separator and a run
    of at least eight hex digits.  [hex_run_sep n rs] scans the reversed
    stem, [n] hex digits already read. *)
Fixpoint hex_run_sep (n : nat) (rs : list ascii) : bool :=
  match rs with
  | [] => false
  | c :: r => (Nat.leb 8 n && Chars.is_hash_sep c) || (Chars.is_hex_ci c && hex_run_sep (S n) r)
  end.

Definition hash_before_final_ext (filename : string) : bool :=
  match Path.drop_while (fun c => negb (Path.is_dot c)) (rev (list_ascii_of_string filename)) with
  | [] => false
  | _ :: stem_rev => hex_run_sep 0 stem_rev
  end.

(** Reading of "lives under an [assets/] path segment": some directory
    segment of the relative path is [assets]. *)
Definition under_assets_segment (p : string) : bool :=
  existsb (fun seg => (string_of_list_ascii seg =? "assets")%string)
          (removelast (split_on "/"%char (list_ascii_of_string p))).

Definition all_hashed_words (assets : list Build.AssetInfo) : bool :=
  forallb (fun a => negb (under_assets_segment (Build.path a)
                          && (Build.asset_type_eqb (Build.type a) Build.Css
                              || Build.asset_type_eqb (Build.type a) Build.Js))
                    || Build.hasHash a) assets.

(** Reading of "a block": the first line is exactly [---] and a later line
    is exactly [---]. *)
Definition has_frontmatter_block_words (content : string) : bool :=
  match split_on Chars.nl (list_ascii_of_string content) with
  | l0 :: rest =>
      (string_of_list_ascii l0 =? "---")%string
      && existsb (fun l => (string_of_list_ascii l =? "---")%string) rest
  | [] => false
  end.

End SpecWords.

(** ** Concrete collaborators for evaluating the model *)

Module Instances.

Import Content.

(** A YAML loader that yields a non-empty object for every text. *)
Definition yaml_object_loader (s : string) : exn_or jsval :=
  Ret (JObj [("source", JStr s)]).

Definition accept_all : Schema := fun v => Parsed v.

(** The issue Zod reports for a missing required string field [title]. *)
Definition title_required : ZodIssue :=
  {| issue_code := "invalid_type";
     issue_details := [("expected", "string"); ("received", "undefined")];
     issue_path := [PKey "title"];
     issue_message := "Required" |}.

Definition reject_title : Schema := fun _ => Issues [title_required].

(** A file system holding the given files, each at its own path. *)
Definition files_fs (files : list (string * string)) : FS :=
  {| fs_exists := fun p => existsb (fun f => (fst f =? p)%string) files;
     fs_read := fun p =>
       match find (fun f => (fst f =? p)%string) files with
       | Some f => Ret (snd f)
       | None => Raise "ENOENT: no such file or directory"
       end;
     fs_readdir := fun _ => [];
     fs_resolve := fun p => p |}.

Definition out_tree (t : list Build.entry) : string -> option (list Build.entry) :=
  fun p => if (p =? "dist")%string then Some t else None.

End Instances.

(* ================================================================== *)
(** * Properties *)

(** ** Character facts *)

Ltac ascii_cases c :=
  destruct c as [[] [] [] [] [] [] [] []]; reflexivity.

Lemma lower_upper (c : ascii) : Chars.lower (Chars.upper c) = Chars.lower c.
Proof. ascii_cases c. Qed.

Lemma lower_lower (c : ascii) : Chars.lower (Chars.lower c) = Chars.lower c.
Proof. ascii_cases c. Qed.

Lemma is_dot_upper (c : ascii) : Path.is_dot (Chars.upper c) = Path.is_dot c.
Proof. ascii_cases c. Qed.

Lemma is_slash_upper (c : ascii) : Path.is_slash (Chars.upper c) = Path.is_slash c.
Proof. ascii_cases c. Qed.

Lemma is_dot_lower (c : ascii) : Path.is_dot (Chars.lower c) = Path.is_dot c.
Proof. ascii_cases c. Qed.

Lemma is_slash_lower (c : ascii) : Path.is_slash (Chars.lower c) = Path.is_slash c.
Proof. ascii_cases c. Qed.

(** ** [path.extname] commutes with a character map that keeps dots and
    slashes in place *)

Section ExtnameMap.

Variable g : ascii -> ascii.
Hypothesis g_dot : forall c, Path.is_dot (g c) = Path.is_dot c.
Hypothesis g_slash : forall c, Path.is_slash (g c) = Path.is_slash c.

Lemma take_while_map (f : ascii -> bool) (l : list ascii) :
  (forall c, f (g c) = f c) -> Path.take_while f (map g l) = map g (Path.take_while f l).
Proof.
  intros Hf; induction l as [|c l IH]; simpl; [reflexivity|].
  rewrite Hf; destruct (f c); simpl; [rewrite IH|]; reflexivity.
Qed.

Lemma drop_while_map (f : ascii -> bool) (l : list ascii) :
  (forall c, f (g c) = f c) -> Path.drop_while f (map g l) = map g (Path.drop_while f l).
Proof.
  intros Hf; induction l as [|c l IH]; simpl; [reflexivity|].
  rewrite Hf; destruct (f c); [exact IH|reflexivity].
Qed.

Lemma forallb_dot_map (l : list ascii) :
  forallb Path.is_dot (map g l) = forallb Path.is_dot l.
Proof. induction l as [|c l IH]; simpl; [reflexivity|]. now rewrite g_dot, IH. Qed.

Lemma last_part_map (s : string) :
  Path.last_part (string_of_list_ascii (map g (list_ascii_of_string s)))
  = map g (Path.last_part s).
Proof.
  unfold Path.last_part. rewrite list_ascii_of_string_of_list_ascii, <- map_rev.
  rewrite drop_while_map by exact g_slash.
  rewrite take_while_map by (intro c; now rewrite g_slash).
  now rewrite map_rev.
Qed.

Lemma g_dot_char : g "."%char = "."%char.
Proof.
  pose proof (g_dot "."%char) as H. unfold Path.is_dot in H. simpl in H.
  now apply Ascii.eqb_eq in H.
Qed.

Lemma extname_map (s : string) :
  list_ascii_of_string (Path.extname (string_of_list_ascii (map g (list_ascii_of_string s))))
  = map g (list_ascii_of_string (Path.extname s)).
Proof.
  unfold Path.extname. rewrite last_part_map, <- map_rev.
  set (l := rev (Path.last_part s)).
  rewrite drop_while_map by (intro c; now rewrite g_dot).
  rewrite take_while_map by (intro c; now rewrite g_dot).
  destruct (Path.drop_while (fun c => negb (Path.is_dot c)) l) as [|d pre]; simpl;
    [reflexivity|].
  rewrite !length_map, forallb_dot_map.
  destruct (length pre =? 0); [reflexivity|].
  destruct (forallb Path.is_dot pre && _ && _); [reflexivity|].
  cbn [list_ascii_of_string map].
  rewrite !list_ascii_of_string_of_list_ascii, <- map_rev.
  now rewrite g_dot_char.
Qed.

End ExtnameMap.

Lemma to_lower_extname_map (g : ascii -> ascii) (s : string) :
  (forall c, Path.is_dot (g c) = Path.is_dot c) ->
  (forall c, Path.is_slash (g c) = Path.is_slash c) ->
  (forall c, Chars.lower (g c) = Chars.lower c) ->
  to_lower (Path.extname (string_of_list_ascii (map g (list_ascii_of_string s))))
  = to_lower (Path.extname s).
Proof.
  intros Hd Hs Hl. unfold to_lower.
  rewrite extname_map by assumption. rewrite map_map.
  f_equal. apply map_ext. exact Hl.
Qed.

Lemma getAssetType_map (g : ascii -> ascii) (s : string) :
  (forall c, Path.is_dot (g c) = Path.is_dot c) ->
  (forall c, Path.is_slash (g c) = Path.is_slash c) ->
  (forall c, Chars.lower (g c) = Chars.lower c) ->
  Build.getAssetType (string_of_list_ascii (map g (list_ascii_of_string s)))
  = Build.getAssetType s.
Proof.
  intros Hd Hs Hl. unfold Build.getAssetType.
  now rewrite (to_lower_extname_map g s Hd Hs Hl).
Qed.

(** ** C9: asset classification *)

(** C9: [getAssetType] is total and depends only on the lower-cased
    extension (as [path.extname] delimits it): html/htm give html, css gives
    css, js/mjs give js, jpg/jpeg/png/gif/webp/svg/avif/ico give image and
    every other extension gives other; upper- or lower-casing the filename
    does not change the class; [getAssetType "main.MJS"] is js. *)
Theorem getAssetType_classification (f : string) :
  let e := to_lower (Path.extname f) in
  (Build.getAssetType f = Build.Html <-> In e [".html"; ".htm"]) /\
  (Build.getAssetType f = Build.Css <-> e = ".css") /\
  (Build.getAssetType f = Build.Js <-> In e [".js"; ".mjs"]) /\
  (Build.getAssetType f = Build.Image <->
     In e [".jpg"; ".jpeg"; ".png"; ".gif"; ".webp"; ".svg"; ".avif"; ".ico"]) /\
  (Build.getAssetType f = Build.Other <->
     ~ In e [".html"; ".htm"; ".css"; ".js"; ".mjs"; ".jpg"; ".jpeg"; ".png"; ".gif";
             ".webp"; ".svg"; ".avif"; ".ico"]) /\
  Build.getAssetType (to_upper f) = Build.getAssetType f /\
  Build.getAssetType (to_lower f) = Build.getAssetType f /\
  Build.getAssetType "main.MJS" = Build.Js.
Proof.
  intro e.
  split; [|split; [|split; [|split; [|split; [|split; [|split]]]]]].
  6: { apply getAssetType_map; [exact is_dot_upper | exact is_slash_upper | exact lower_upper]. }
  6: { apply getAssetType_map; [exact is_dot_lower | exact is_slash_lower | exact lower_lower]. }
  6: { reflexivity. }
  all: unfold Build.getAssetType; cbn zeta; fold e; clearbody e; cbn [existsb].
  all: destruct (in_dec string_dec e
         [".html"; ".htm"; ".css"; ".js"; ".mjs"; ".jpg"; ".jpeg"; ".png"; ".gif";
          ".webp"; ".svg"; ".avif"; ".ico"]) as [Hin|Hout];
       [ repeat (destruct Hin as [<-|Hin]; [vm_compute; intuition discriminate|]);
         destruct Hin
       | ].
  all: assert (Hne : forall x, In x
         [".html"; ".htm"; ".css"; ".js"; ".mjs"; ".jpg"; ".jpeg"; ".png"; ".gif";
          ".webp"; ".svg"; ".avif"; ".ico"] -> String.eqb e x = false)
         by (intros x Hx; apply String.eqb_neq; intros ->; exact (Hout Hx)).
  all: rewrite !Hne by (simpl; auto 20); cbn [orb].
  all: split; intros H; try reflexivity; try discriminate; try tauto;
       exfalso; apply Hout; subst; simpl in *; intuition (subst; auto 20).
Qed.

(** ** C3: content-hash detection *)

Lemma hex_run_dot_iff (s : list ascii) (n : nat) :
  Build.hex_run_dot n s = true <->
  exists h e, s = h ++ "."%char :: e /\ forallb Chars.is_hex_ci h = true /\ 8 <= n + length h.
Proof.
  revert n; induction s as [|c r IH]; intro n; cbn [Build.hex_run_dot].
  - split; [discriminate|].
    intros (h & e & Hs & _). destruct h; discriminate.
  - rewrite orb_true_iff, !andb_true_iff, Nat.leb_le, IH. split.
    + intros [[Hn Hd] | [Hx (h & e & -> & Hh & Hl)]].
      * exists [], r. unfold Path.is_dot in Hd. apply Ascii.eqb_eq in Hd; subst.
        simpl. rewrite Nat.add_0_r. auto.
      * exists (c :: h), e. simpl. rewrite Hx, Hh. split; [reflexivity|split; [reflexivity|lia]].
    + intros (h & e & Hs & Hh & Hl). destruct h as [|d h]; simpl in *.
      * injection Hs as -> ->. left. rewrite Nat.add_0_r in Hl. split; [exact Hl|reflexivity].
      * injection Hs as -> ->. apply andb_true_iff in Hh as [Hd Hh].
        right. split; [exact Hd|]. exists h, e. split; [reflexivity|split; [exact Hh|lia]].
Qed.

Lemma hash_search_iff (s : list ascii) :
  Build.hash_search s = true <->
  exists p c r, s = p ++ c :: r /\ Chars.is_hash_sep c = true /\ Build.hex_run_dot 0 r = true.
Proof.
  induction s as [|c r IH]; simpl.
  - split; [discriminate|]. intros (p & c & r & Hs & _). destruct p; discriminate.
  - rewrite orb_true_iff, andb_true_iff, IH. split.
    + intros [[Hc Hr] | (p & d & t & -> & Hd & Ht)].
      * exists [], c, r. auto.
      * exists (c :: p), d, t. auto.
    + intros (p & d & t & Hs & Hd & Ht). destruct p as [|e p]; simpl in Hs;
        injection Hs as -> ->.
      * left; auto.
      * right. exists p, d, t. auto.
Qed.

(** C3 (as the code behaves): [hasContentHash] holds exactly when the name
    contains, anywhere, a separator [.], [_] or [-] followed by at least
    eight hex digits (either case) and a dot; the spec's three examples
    evaluate as stated. *)
Theorem hasContentHash_anywhere (filename : string) :
  (Build.hasContentHash filename = true <->
   exists p c h e,
     list_ascii_of_string filename = p ++ c :: h ++ "."%char :: e /\
     Chars.is_hash_sep c = true /\ forallb Chars.is_hex_ci h = true /\ 8 <= length h) /\
  Build.hasContentHash "style.abc12345.css" = true /\
  Build.hasContentHash "style.css" = false /\
  Build.hasContentHash "style.abc.css" = false.
Proof.
  split; [|repeat split; reflexivity].
  unfold Build.hasContentHash. rewrite hash_search_iff. split.
  - intros (p & c & r & Hs & Hc & Hr). apply hex_run_dot_iff in Hr as (h & e & -> & Hh & Hl).
    exists p, c, h, e. auto.
  - intros (p & c & h & e & Hs & Hc & Hh & Hl). exists p, c, (h ++ "."%char :: e).
    split; [exact Hs|split; [exact Hc|]]. apply hex_run_dot_iff. exists h, e. auto.
Qed.

(** C3 (the spec's reading fails): the hex segment need not sit right
    before the final extension; ["a.abcdef12.min.js"] is reported hashed
    although the segment before its final extension is [.min]. *)
Lemma hasContentHash_not_before_final_ext :
  Build.hasContentHash "a.abcdef12.min.js" = true /\
  SpecWords.hash_before_final_ext "a.abcdef12.min.js" = false.
Proof. split; reflexivity. Qed.

(** ** The build report's optimisation checks *)

Lemma sample_loop_forallb (check : string -> bool) (l : list string) :
  Build.sample_loop check l = forallb check l.
Proof.
  induction l as [|c l IH]; simpl; [reflexivity|].
  destruct (check c); simpl; [exact IH|reflexivity].
Qed.

Lemma forallb_filter_impl {A} (P h : A -> bool) (l : list A) :
  forallb h (filter P l) = forallb (fun a => negb (P a) || h a) l.
Proof.
  induction l as [|a l IH]; simpl; [reflexivity|].
  destruct (P a); simpl; [now rewrite IH | exact IH].
Qed.

Lemma empty_or_forallb {A} (h : A -> bool) (l : list A) :
  ((length l =? 0) || forallb h l) = forallb h l.
Proof. destruct l; reflexivity. Qed.

Lemma build_checks (fs_dir : string -> option (list Build.entry)) (outDir : string) :
  let assets := Build.collectFiles (fs_dir outDir) in
  let oc := Build.optimizationChecks (Build.generateBuildReport fs_dir outDir) in
  Build.allAssetsHashed oc =
    forallb (fun a => negb (starts_with (Build.path (fst a)) "assets/"
                            && (Build.asset_type_eqb (Build.type (fst a)) Build.Css
                                || Build.asset_type_eqb (Build.type (fst a)) Build.Js))
                      || Build.hasHash (fst a)) assets /\
  Build.htmlMinified oc =
    forallb Build.isHtmlMinified (map snd (firstn 3 (Build.of_type Build.Html assets))) /\
  Build.cssMinified oc =
    forallb Build.isCssMinified (map snd (firstn 3 (Build.of_type Build.Css assets))) /\
  Build.jsMinified oc =
    forallb Build.isJsMinified (map snd (firstn 3 (Build.of_type Build.Js assets))).
Proof.
  intros assets oc. subst oc. unfold Build.generateBuildReport; cbn zeta; fold assets.
  cbn [Build.optimizationChecks Build.allAssetsHashed Build.htmlMinified
       Build.cssMinified Build.jsMinified].
  rewrite !sample_loop_forallb, empty_or_forallb, forallb_filter_impl.
  repeat split.
Qed.

(** ** C6: how the build report computes its optimisation flags *)

(** C6 (as the code behaves): [allAssetsHashed] holds iff every css or js
    asset whose relative path starts with [assets/] (the top-level assets
    folder) is hashed, vacuously when there is none; each minification flag
    is the check of the first three files of its type (at most), so later
    files never affect it, and the loop stops at the first failure. *)
Theorem generateBuildReport_flags (fs_dir : string -> option (list Build.entry)) (outDir : string) :
  let assets := Build.collectFiles (fs_dir outDir) in
  let oc := Build.optimizationChecks (Build.generateBuildReport fs_dir outDir) in
  Build.allAssetsHashed oc =
    forallb (fun a => negb (starts_with (Build.path (fst a)) "assets/"
                            && (Build.asset_type_eqb (Build.type (fst a)) Build.Css
                                || Build.asset_type_eqb (Build.type (fst a)) Build.Js))
                      || Build.hasHash (fst a)) assets /\
  Build.htmlMinified oc =
    forallb Build.isHtmlMinified (map snd (firstn 3 (Build.of_type Build.Html assets))) /\
  Build.cssMinified oc =
    forallb Build.isCssMinified (map snd (firstn 3 (Build.of_type Build.Css assets))) /\
  Build.jsMinified oc =
    forallb Build.isJsMinified (map snd (firstn 3 (Build.of_type Build.Js assets))).
Proof. exact (build_checks fs_dir outDir). Qed.

(** C6 (the spec's reading fails): an unhashed script in a nested
    [blog/assets/] directory does not clear [allAssetsHashed], although it
    lives under an [assets/] path segment. *)
Lemma allAssetsHashed_nested_assets_dir :
  let fs_dir := Instances.out_tree
                  [Build.EDir "blog" [Build.EDir "assets" [Build.EFile "main.js" "x"]]] in
  let rep := Build.generateBuildReport fs_dir "dist" in
  Build.assets rep = [{| Build.path := "blog/assets/main.js"; Build.size := 1;
                         Build.type := Build.Js; Build.hasHash := false |}] /\
  Build.allAssetsHashed (Build.optimizationChecks rep) = true /\
  SpecWords.all_hashed_words (Build.assets rep) = false.
Proof. vm_compute. repeat split. Qed.

(** ** C8: build validation errors *)

Lemma In_string_existsb (x : string) (l : list string) :
  In x l <-> existsb (String.eqb x) l = true.
Proof.
  rewrite existsb_exists. split.
  - intros H. exists x. split; [exact H|apply String.eqb_refl].
  - intros (y & Hy & Hxy). apply String.eqb_eq in Hxy. now subst.
Qed.

Lemma NoDup_string_dec (l : list string) :
  (fix nd (l : list string) : bool :=
     match l with
     | [] => true
     | x :: r => negb (existsb (String.eqb x) r) && nd r
     end) l = true -> NoDup l.
Proof.
  induction l as [|x r IH]; simpl; intro H; [constructor|].
  apply andb_true_iff in H as [H1 H2]. constructor; [|exact (IH H2)].
  rewrite In_string_existsb. now destruct (existsb (String.eqb x) r).
Qed.

(** C8: [validateBuildOptimization] reports [valid] iff no error was
    pushed; each of the four error messages is present iff its check flag
    in the generated report is false, the messages are distinct, so there is
    exactly one per false flag; and when [allAssetsHashed] is false some
    error mentions "content hashes". *)
Theorem validateBuildOptimization_errors
  (fs_dir : string -> option (list Build.entry)) (outDir : string) :
  let v := Build.validateBuildOptimization fs_dir outDir in
  let oc := Build.optimizationChecks (Build.report v) in
  Build.report v = Build.generateBuildReport fs_dir outDir /\
  (Build.valid v = true <-> Build.errors v = []) /\
  (In Build.err_hashes (Build.errors v) <-> Build.allAssetsHashed oc = false) /\
  (In Build.err_html (Build.errors v) <-> Build.htmlMinified oc = false) /\
  (In Build.err_css (Build.errors v) <-> Build.cssMinified oc = false) /\
  (In Build.err_js (Build.errors v) <-> Build.jsMinified oc = false) /\
  NoDup (Build.errors v) /\
  length (Build.errors v) =
    length (filter negb [Build.allAssetsHashed oc; Build.htmlMinified oc;
                         Build.cssMinified oc; Build.jsMinified oc]) /\
  (Build.allAssetsHashed oc = false ->
   exists e, In e (Build.errors v) /\ includes e "content hashes" = true).
Proof.
  intros v oc. subst v oc. unfold Build.validateBuildOptimization. cbn zeta.
  cbn [Build.report Build.valid Build.errors].
  split; [reflexivity|].
  rewrite !In_string_existsb.
  destruct (Build.optimizationChecks (Build.generateBuildReport fs_dir outDir))
    as [[] [] [] []].
  all: cbn [Build.allAssetsHashed Build.htmlMinified Build.cssMinified Build.jsMinified negb].
  all: vm_compute.
  all: split; [split; intros H; first [reflexivity | discriminate | now destruct H]|].
  all: repeat (split; [split; intros H; first [reflexivity | discriminate]|]).
  all: split; [apply NoDup_string_dec; reflexivity|].
  all: split; [reflexivity|].
  all: intros H; try discriminate.
  all: eexists; split; [now left | reflexivity].
Qed.

(** The scenario of the spec: an unhashed [assets/style.css] next to a
    hashed script fails validation with a "content hashes" error. *)
Lemma validateBuildOptimization_errors_witness :
  let fs_dir := Instances.out_tree
    [Build.EFile "index.html" "<html><body>ok</body></html>";
     Build.EDir "assets" [Build.EFile "style.css" "body{margin:0}";
                          Build.EFile "main.ab12cd34.js" "console.log(1)"]] in
  let v := Build.validateBuildOptimization fs_dir "dist" in
  Build.allAssetsHashed (Build.optimizationChecks (Build.report v)) = false /\
  Build.valid v = false /\
  exists e, In e (Build.errors v) /\ includes e "content hashes" = true.
Proof.
  intros fs_dir v.
  destruct (validateBuildOptimization_errors fs_dir "dist")
    as (_ & _ & _ & _ & _ & _ & _ & _ & Hhash).
  split; [vm_compute; reflexivity|]. split; [vm_compute; reflexivity|].
  apply Hhash. vm_compute. reflexivity.
Defined.

(** ** C10: empty stylesheets *)

(** C10: on the empty string [isCssMinified] is false (its ratio is
    [0 / 0], NaN, and [NaN < 0.001] is false), whereas [isHtmlMinified] and
    [isJsMinified] accept every content shorter than 200 and 100 characters;
    so an empty css file among the sampled (first three) css files makes
    the report's [cssMinified] false. *)
Theorem isCssMinified_empty_false :
  Build.isCssMinified "" = false /\
  Build.isHtmlMinified "" = true /\
  Build.isJsMinified "" = true /\
  (forall s, length (list_ascii_of_string s) < 200 -> Build.isHtmlMinified s = true) /\
  (forall s, length (list_ascii_of_string s) < 100 -> Build.isJsMinified s = true) /\
  (forall (fs_dir : string -> option (list Build.entry)) (outDir : string),
     In "" (map snd (firstn 3 (Build.of_type Build.Css (Build.collectFiles (fs_dir outDir))))) ->
     Build.cssMinified (Build.optimizationChecks (Build.generateBuildReport fs_dir outDir))
     = false).
Proof.
  split; [reflexivity|]. split; [reflexivity|]. split; [reflexivity|].
  split; [intros s Hs; unfold Build.isHtmlMinified; cbn zeta;
          now rewrite (proj2 (Nat.ltb_lt _ _) Hs)|].
  split; [intros s Hs; unfold Build.isJsMinified; cbn zeta;
          now rewrite (proj2 (Nat.ltb_lt _ _) Hs)|].
  intros fs_dir outDir Hin.
  destruct (build_checks fs_dir outDir) as (_ & _ & Hcss & _).
  rewrite Hcss. apply not_true_iff_false. rewrite forallb_forall. intros Hall.
  specialize (Hall "" Hin). discriminate Hall.
Qed.

(** An empty [assets/style.css] next to a non-empty one. *)
Lemma isCssMinified_empty_false_witness :
  let fs_dir := Instances.out_tree
    [Build.EDir "assets" [Build.EFile "style.ab12cd34.css" "";
                          Build.EFile "print.ab12cd35.css" "a{b:c}"]] in
  In "" (map snd (firstn 3 (Build.of_type Build.Css (Build.collectFiles (fs_dir "dist"))))) /\
  Build.cssMinified (Build.optimizationChecks (Build.generateBuildReport fs_dir "dist")) = false.
Proof.
  intros fs_dir.
  assert (Hin : In "" (map snd (firstn 3 (Build.of_type Build.Css
                                           (Build.collectFiles (fs_dir "dist"))))))
    by (vm_compute; left; reflexivity).
  split; [exact Hin|].
  destruct isCssMinified_empty_false as (_ & _ & _ & _ & _ & H).
  exact (H fs_dir "dist" Hin).
Defined.

(** ** C7: average rating *)

Lemma fold_ratings_integral (l : list DataLoader.Testimonial) (acc : Q) :
  (forall t, In t l -> exists z, DataLoader.rating t = inject_Z z /\ (1 <= z <= 5)%Z) ->
  exists S : Z,
    fold_left (fun a t => a + DataLoader.rating t)%Q l acc == acc + inject_Z S /\
    (Z.of_nat (length l) <= S <= 5 * Z.of_nat (length l))%Z.
Proof.
  revert acc; induction l as [|t l IH]; intros acc Hl; simpl.
  - exists 0%Z. split; [simpl; ring | lia].
  - destruct (Hl t (or_introl eq_refl)) as (z & Hz & Hzb).
    destruct (IH (acc + DataLoader.rating t)%Q (fun u Hu => Hl u (or_intror Hu)))
      as (S & HS & HSb).
    exists (z + S)%Z. split; [|lia].
    rewrite HS, Hz, inject_Z_plus. ring.
Qed.

(** C7: [calculateAverageRating] is [null] exactly when no testimonial has
    the course slug; when some do and all their ratings are integers in
    [1, 5], it is [Math.round(mean * 10) / 10] for the mean of their
    ratings, a value [k / 10] with [10 <= k <= 50], hence in [1, 5]. *)
Theorem calculateAverageRating_spec (ts : list DataLoader.Testimonial) (slug : string) :
  (DataLoader.calculateAverageRating ts slug = None <->
   forall t, In t ts -> DataLoader.courseSlug t <> slug) /\
  ((exists t, In t ts /\ DataLoader.courseSlug t = slug) ->
   (forall t, In t ts -> DataLoader.courseSlug t = slug ->
      exists z, DataLoader.rating t = inject_Z z /\ (1 <= z <= 5)%Z) ->
   let m := filter (fun t => (DataLoader.courseSlug t =? slug)%string) ts in
   let mean := (fold_left (fun a t => a + DataLoader.rating t) m 0
                / inject_Z (Z.of_nat (length m)))%Q in
   exists k : Z,
     DataLoader.calculateAverageRating ts slug = Some (inject_Z k / 10)%Q /\
     k = DataLoader.js_round (mean * 10)%Q /\
     (10 <= k <= 50)%Z /\
     (1 <= inject_Z k / 10 <= 5)%Q).
Proof.
  unfold DataLoader.calculateAverageRating. split.
  - split.
    + intros H t Ht Hs.
      assert (Hin : In t (filter (fun t => (DataLoader.courseSlug t =? slug)%string) ts))
        by (apply filter_In; split; [exact Ht | now apply String.eqb_eq]).
      destruct (filter _ ts); [destruct Hin | discriminate H].
    + intros H.
      destruct (filter (fun t => (DataLoader.courseSlug t =? slug)%string) ts) as [|t l] eqn:Hf;
        [reflexivity|].
      assert (Hin : In t (t :: l)) by now left.
      rewrite <- Hf, filter_In, String.eqb_eq in Hin. destruct Hin as [Ht Hs].
      exfalso; exact (H t Ht Hs).
  - intros (t0 & Ht0 & Hs0) Hint.
    set (m := filter (fun t => (DataLoader.courseSlug t =? slug)%string) ts).
    set (mean := (fold_left (fun a t => a + DataLoader.rating t) m 0
                  / inject_Z (Z.of_nat (length m)))%Q).
    assert (Hm : In t0 m) by (apply filter_In; split; [exact Ht0 | now apply String.eqb_eq]).
    assert (Hlen : (length m =? 0) = false)
      by (destruct m; [destruct Hm | reflexivity]).
    rewrite Hlen.
    exists (DataLoader.js_round (mean * 10)%Q).
    split; [reflexivity|]. split; [reflexivity|].
    assert (Hall : forall t, In t m ->
              exists z, DataLoader.rating t = inject_Z z /\ (1 <= z <= 5)%Z).
    { intros t Ht. apply filter_In in Ht as [Ht Hs]. apply String.eqb_eq in Hs.
      exact (Hint t Ht Hs). }
    destruct (fold_ratings_integral m 0 Hall) as (S & HS & HSb).
    assert (Hpos : (0 < inject_Z (Z.of_nat (length m)))%Q).
    { change 0%Q with (inject_Z 0). rewrite <- Zlt_Qlt.
      destruct m; [destruct Hm | simpl; lia]. }
    assert (Hlo : (1 <= mean)%Q).
    { unfold mean. apply Qle_shift_div_l; [exact Hpos|].
      rewrite HS, Qplus_0_l, Qmult_1_l. rewrite <- Zle_Qle. lia. }
    assert (Hhi : (mean <= 5)%Q).
    { unfold mean. apply Qle_shift_div_r; [exact Hpos|].
      rewrite HS, Qplus_0_l. change 5%Q with (inject_Z 5). rewrite <- inject_Z_mult.
      rewrite <- Zle_Qle. lia. }
    unfold DataLoader.js_round.
    set (x := (mean * 10 + (1 # 2))%Q).
    pose proof (Qfloor_le x) as Hf1. pose proof (Qlt_floor x) as Hf2.
    set (k := Qfloor x) in *.
    rewrite inject_Z_plus in Hf2.
    change (inject_Z 1) with (1 # 1)%Q in Hf2.
    assert (Hk1 : (inject_Z k < 51 # 1)%Q) by (unfold x in Hf1; lra).
    assert (Hk2 : (9 # 1 < inject_Z k)%Q) by (unfold x in Hf2; lra).
    change (51 # 1)%Q with (inject_Z 51) in Hk1.
    change (9 # 1)%Q with (inject_Z 9) in Hk2.
    rewrite <- Zlt_Qlt in Hk1, Hk2.
    assert (Hk : (10 <= k <= 50)%Z) by lia.
    split; [exact Hk|].
    assert (Hq1 : (10 <= inject_Z k)%Q) by (change 10%Q with (inject_Z 10); rewrite <- Zle_Qle; lia).
    assert (Hq2 : (inject_Z k <= 50)%Q) by (change 50%Q with (inject_Z 50); rewrite <- Zle_Qle; lia).
    split; [apply Qle_shift_div_l | apply Qle_shift_div_r]; try reflexivity; lra.
Qed.

(** Ratings 4 and 5 for course "c" (and 1 for "d") average to 4.5. *)
Lemma calculateAverageRating_spec_witness :
  let ts := [{| DataLoader.courseSlug := "c"; DataLoader.rating := 4 |};
             {| DataLoader.courseSlug := "c"; DataLoader.rating := 5 |};
             {| DataLoader.courseSlug := "d"; DataLoader.rating := 1 |}] in
  DataLoader.calculateAverageRating ts "c" = Some (inject_Z 45 / 10)%Q /\
  exists k : Z,
    DataLoader.calculateAverageRating ts "c" = Some (inject_Z k / 10)%Q /\
    (10 <= k <= 50)%Z.
Proof.
  intros ts. split; [vm_compute; reflexivity|].
  destruct (calculateAverageRating_spec ts "c") as [_ H].
  destruct H as (k & Hk & _ & Hb & _).
  - exists {| DataLoader.courseSlug := "c"; DataLoader.rating := 4 |}.
    split; [now left | reflexivity].
  - intros t Ht Hs. destruct Ht as [<-|[<-|[<-|[]]]].
    + exists 4%Z. split; [reflexivity|lia].
    + exists 5%Z. split; [reflexivity|lia].
    + discriminate Hs.
  - exists k. split; [exact Hk | exact Hb].
Defined.

(** ** C2: the content validation report *)

Lemma string_app_assoc (a b c : string) : ((a ++ b) ++ c)%string = (a ++ (b ++ c))%string.
Proof. induction a as [|x a IH]; simpl; [reflexivity|]. now rewrite IH. Qed.

Lemma string_app_cancel_l (a x y : string) : (a ++ x)%string = (a ++ y)%string -> x = y.
Proof.
  induction a as [|c a IH]; simpl; intros H; [exact H|].
  injection H as H. exact (IH H).
Qed.

Section ValidatorFacts.

Import Content Validator.

Variable yaml_load : string -> exn_or jsval.

Lemma validateYamlFile_file (fs : FS) (p : string) (schema : Schema) :
  file (validateYamlFile yaml_load fs p schema) = p.
Proof.
  unfold validateYamlFile.
  destruct (fs_exists fs p); [|reflexivity]. simpl.
  destruct (fs_read fs p) as [c|m]; [|reflexivity].
  destruct (yaml_load c) as [v|m]; [|reflexivity].
  destruct (schema v); reflexivity.
Qed.

Lemma validateMarkdownFile_file (fs : FS) (p : string) (schema : Schema) :
  file (validateMarkdownFile yaml_load fs p schema) = p.
Proof.
  unfold validateMarkdownFile.
  destruct (fs_exists fs p); [|reflexivity]. simpl.
  destruct (fs_read fs p) as [c|m]; [|reflexivity]. cbn zeta.
  destruct (truthy (extractFrontmatter yaml_load c)); simpl; [|reflexivity].
  destruct (schema _); reflexivity.
Qed.

Lemma getFilesInDirectory_join (fs : FS) (dir : string) (exts : list string) (f : string) :
  In f (getFilesInDirectory fs dir exts) -> exists name, f = Path.join dir name.
Proof.
  unfold getFilesInDirectory. destruct (fs_exists fs dir); simpl; [|intros []].
  rewrite in_flat_map. intros (e & _ & Hf).
  destruct (d_isFile e && _); [|destruct Hf].
  destruct Hf as [<-|[]]. now exists (d_name e).
Qed.

(** Product files live under [src/data/products/], so none of them is one
    of the four YAML data files. *)
Lemma product_path_not_yaml (basePath name p : string) (s : Schema)
  (sr st sre sp : Schema) :
  In (p, s) (yamlValidations sr st sre sp basePath) ->
  Path.join (productsDir basePath) name <> p.
Proof.
  unfold yamlValidations, productsDir, Path.join. simpl.
  intros Hin Heq.
  rewrite !string_app_assoc in Heq.
  destruct Hin as [Hin|[Hin|[Hin|[Hin|[]]]]]; injection Hin as <- _;
    apply string_app_cancel_l in Heq; discriminate Heq.
Qed.

End ValidatorFacts.

(** C2: the report of [validateAllContent] has [success] iff its invalid
    count is zero; its results are the results of the YAML data files that
    exist, in order, followed by those of the product files, so its total is
    the number of existing YAML data files plus the number of product files,
    split into valid and invalid; and a YAML data file that does not exist
    contributes no result at all. *)
Theorem validateAllContent_skips_missing
  (yaml_load : string -> Content.exn_or Content.jsval)
  (sr st sre sp sprod : Content.Schema) (fs : Content.FS) (basePath : string) :
  let r := Validator.validateAllContent yaml_load sr st sre sp sprod fs basePath in
  let present := filter (fun ps => Content.fs_exists fs (fst ps))
                        (Validator.yamlValidations sr st sre sp basePath) in
  let products := filter (fun f => negb (Path.basename f =? ".gitkeep")%string)
                         (Validator.getFilesInDirectory fs (Validator.productsDir basePath)
                                                        [".md"; ".mdx"]) in
  (Validator.success r = true <-> Validator.invalid_count r = 0) /\
  Validator.total r = Validator.valid_count r + Validator.invalid_count r /\
  Validator.results r =
    map (fun ps => Validator.validateYamlFile yaml_load fs (fst ps) (snd ps)) present
    ++ map (fun f => Validator.validateMarkdownFile yaml_load fs f sprod) products /\
  Validator.total r = length present + length products /\
  (forall p s, In (p, s) (Validator.yamlValidations sr st sre sp basePath) ->
     Content.fs_exists fs p = false ->
     forall res, In res (Validator.results r) -> Validator.file res <> p).
Proof.
  intros r present products.
  assert (Hres : Validator.results r =
    map (fun ps => Validator.validateYamlFile yaml_load fs (fst ps) (snd ps)) present
    ++ map (fun f => Validator.validateMarkdownFile yaml_load fs f sprod) products).
  { subst r present products. unfold Validator.validateAllContent. cbn zeta.
    cbn [Validator.results]. f_equal.
    - generalize (Validator.yamlValidations sr st sre sp basePath).
      induction l as [|ps l IH]; simpl; [reflexivity|].
      destruct (Content.fs_exists fs (fst ps)); simpl; [f_equal|]; exact IH.
    - generalize (Validator.getFilesInDirectory fs (Validator.productsDir basePath)
                                                [".md"; ".mdx"]).
      induction l as [|f l IH]; simpl; [reflexivity|].
      destruct (Path.basename f =? ".gitkeep")%string; simpl; [|f_equal]; exact IH. }
  assert (Hcount : forall l : list Validator.ValidationResult,
            length l = length (filter (fun x => Validator.valid x) l)
                       + length (filter (fun x => negb (Validator.valid x)) l)).
  { induction l as [|x l IH]; simpl; [reflexivity|].
    destruct (Validator.valid x); simpl; lia. }
  split; [|split; [|split; [exact Hres|split]]].
  - subst r. unfold Validator.validateAllContent. cbn zeta.
    cbn [Validator.success Validator.invalid_count]. apply Nat.eqb_eq.
  - subst r. unfold Validator.validateAllContent. cbn zeta.
    cbn [Validator.total Validator.valid_count Validator.invalid_count]. apply Hcount.
  - assert (Ht : Validator.total r = length (Validator.results r))
      by (subst r; reflexivity).
    rewrite Ht, Hres, length_app, !length_map. reflexivity.
  - intros p s Hps Hp res Hin. rewrite Hres in Hin.
    apply in_app_or in Hin as [Hin|Hin]; apply in_map_iff in Hin as (x & <- & Hx).
    + rewrite validateYamlFile_file. intros Heq. subst present.
      apply filter_In in Hx as [_ Hx]. rewrite Heq, Hp in Hx. discriminate.
    + rewrite validateMarkdownFile_file. subst products.
      apply filter_In in Hx as [Hx _].
      destruct (getFilesInDirectory_join _ _ _ _ Hx) as (name & ->).
      exact (product_path_not_yaml basePath name p s sr st sre sp Hps).
Qed.

(** A site whose only data file is [testimonials.yaml]: the missing
    [resume.yaml] yields no result, and the report counts one file. *)
Lemma validateAllContent_skips_missing_witness :
  let fs := Instances.files_fs [("site/src/data/testimonials.yaml", "testimonials: []")] in
  let r := Validator.validateAllContent Instances.yaml_object_loader
             Instances.accept_all Instances.accept_all Instances.accept_all
             Instances.accept_all Instances.accept_all fs "site" in
  In ("site/src/data/resume.yaml", Instances.accept_all)
     (Validator.yamlValidations Instances.accept_all Instances.accept_all
        Instances.accept_all Instances.accept_all "site") /\
  Content.fs_exists fs "site/src/data/resume.yaml" = false /\
  (forall res, In res (Validator.results r) -> Validator.file res <> "site/src/data/resume.yaml") /\
  Validator.total r = 1 /\ Validator.success r = true.
Proof.
  intros fs r.
  assert (Hin : In ("site/src/data/resume.yaml", Instances.accept_all)
                   (Validator.yamlValidations Instances.accept_all Instances.accept_all
                      Instances.accept_all Instances.accept_all "site"))
    by (left; reflexivity).
  assert (Hmiss : Content.fs_exists fs "site/src/data/resume.yaml" = false) by reflexivity.
  split; [exact Hin|]. split; [exact Hmiss|].
  destruct (validateAllContent_skips_missing Instances.yaml_object_loader
              Instances.accept_all Instances.accept_all Instances.accept_all
              Instances.accept_all Instances.accept_all fs "site")
    as (_ & _ & _ & _ & Hskip).
  split; [exact (Hskip _ _ Hin Hmiss)|].
  split; vm_compute; reflexivity.
Defined.

(** ** C4: frontmatter detection *)

Lemma starts_with_l_iff (p s : list ascii) :
  starts_with_l p s = true <-> exists r, s = p ++ r.
Proof.
  revert s; induction p as [|c p IH]; intros s; simpl.
  - split; [intros _; now exists s | reflexivity].
  - destruct s as [|d s].
    + split; [discriminate|]. intros (r & Hr). discriminate Hr.
    + rewrite andb_true_iff, Ascii.eqb_eq, IH. split.
      * intros [-> (r & ->)]. now exists r.
      * intros (r & Hr). injection Hr as -> ->. split; [reflexivity|now exists r].
Qed.

Lemma lazy_body_eq (acc s : list ascii) :
  Validator.lazy_body acc s =
  if starts_with_l Validator.close_delim s then Some (rev acc)
  else match s with
       | [] => None
       | c :: r => Validator.lazy_body (c :: acc) r
       end.
Proof. destruct s; reflexivity. Qed.

Lemma lazy_body_complete (g rest acc : list ascii) :
  Validator.lazy_body acc (g ++ Validator.close_delim ++ rest) <> None.
Proof.
  revert acc; induction g as [|c g IH]; intros acc.
  - rewrite lazy_body_eq.
    assert (Hs : starts_with_l Validator.close_delim (Validator.close_delim ++ rest) = true)
      by (apply starts_with_l_iff; eauto).
    rewrite app_nil_l, Hs. discriminate.
  - rewrite lazy_body_eq, <- app_comm_cons.
    destruct (starts_with_l Validator.close_delim _); [discriminate|]. apply IH.
Qed.

Lemma lazy_body_sound (s acc x : list ascii) :
  Validator.lazy_body acc s = Some x -> exists g rest, s = g ++ Validator.close_delim ++ rest.
Proof.
  revert acc; induction s as [|c s IH]; intros acc; rewrite lazy_body_eq.
  - intros H; discriminate H.
  - destruct (starts_with_l Validator.close_delim (c :: s)) eqn:Hs.
    + intros _. apply starts_with_l_iff in Hs as (r & Hr). now exists [], r.
    + intros H. destruct (IH _ H) as (g & rest & ->). now exists (c :: g), rest.
Qed.

Lemma ws_nl_body_complete (ws t : list ascii) :
  forallb Chars.is_ws ws = true -> Validator.lazy_body [] t <> None ->
  Validator.ws_nl_body (ws ++ Chars.nl :: t) <> None.
Proof.
  induction ws as [|c ws IH]; cbn [app forallb Validator.ws_nl_body]; intros Hws Ht.
  - destruct (Chars.is_ws Chars.nl); [destruct (Validator.ws_nl_body t); [discriminate|]|];
      rewrite Ascii.eqb_refl; exact Ht.
  - apply andb_true_iff in Hws as [Hc Hws]. rewrite Hc.
    destruct (Validator.ws_nl_body (ws ++ Chars.nl :: t)) eqn:E; [discriminate|].
    exfalso; exact (IH Hws Ht eq_refl).
Qed.

Lemma ws_nl_body_sound (s x : list ascii) :
  Validator.ws_nl_body s = Some x ->
  exists ws t, s = ws ++ Chars.nl :: t /\ forallb Chars.is_ws ws = true /\
               Validator.lazy_body [] t = Some x.
Proof.
  induction s as [|c s IH]; cbn [Validator.ws_nl_body]; [discriminate|].
  intros H.
  destruct (Chars.is_ws c) eqn:Hc;
    [destruct (Validator.ws_nl_body s) as [y|] eqn:E|].
  - injection H as <-. destruct (IH eq_refl) as (ws & t & -> & Hws & Ht).
    exists (c :: ws), t. simpl. rewrite Hc. auto.
  - destruct (c =? Chars.nl)%char eqn:Hn; [|discriminate].
    apply Ascii.eqb_eq in Hn; subst. exists [], s. auto.
  - destruct (c =? Chars.nl)%char eqn:Hn; [|discriminate].
    apply Ascii.eqb_eq in Hn; subst. exists [], s. auto.
Qed.

(** The pattern [/^---\s*\n([\s\S]*?)\n---/] matches exactly the contents
    that begin with [---], optional whitespace, a newline, any text, and a
    newline followed by [---] (which need not end its line). *)
Lemma frontmatter_match_found_iff (content : string) :
  (exists g, Validator.frontmatter_match content = Some g) <->
  exists ws g rest,
    list_ascii_of_string content =
      Validator.open_delim ++ ws ++ Chars.nl :: g ++ Validator.close_delim ++ rest /\
    forallb Chars.is_ws ws = true.
Proof.
  unfold Validator.frontmatter_match. split.
  - intros (x & Hx).
    destruct (starts_with_l Validator.open_delim (list_ascii_of_string content)) eqn:Hs;
      [|discriminate Hx].
    destruct (Validator.ws_nl_body (skipn 3 (list_ascii_of_string content))) as [y|] eqn:E;
      [|discriminate Hx].
    apply starts_with_l_iff in Hs as (r & Hr). rewrite Hr in E.
    unfold Validator.open_delim in E. cbn [app skipn] in E.
    destruct (ws_nl_body_sound _ _ E) as (ws & t & -> & Hws & Ht).
    destruct (lazy_body_sound _ _ _ Ht) as (g & rest & ->).
    exists ws, g, rest. split; [exact Hr|exact Hws].
  - intros (ws & g & rest & Hc & Hws). rewrite Hc.
    assert (Hs : starts_with_l Validator.open_delim
                   (Validator.open_delim ++ ws ++ Chars.nl :: g ++ Validator.close_delim ++ rest)
                 = true) by (apply starts_with_l_iff; eauto).
    rewrite Hs. unfold Validator.open_delim. cbn [app skipn].
    destruct (Validator.ws_nl_body (ws ++ Chars.nl :: g ++ Validator.close_delim ++ rest))
      as [y|] eqn:E.
    + now eexists.
    + exfalso. exact (ws_nl_body_complete ws _ Hws (lazy_body_complete g rest []) E).
Qed.

Definition md_files_fs (content : string) : Content.FS :=
  Instances.files_fs [("p.md", content)].

Definition no_frontmatter_result (p : string) : Validator.ValidationResult :=
  {| Validator.valid := false; Validator.file := p;
     Validator.errors := Some [Validator.no_frontmatter_msg] |}.

Lemma validateMarkdownFile_read (yaml_load : string -> Content.exn_or Content.jsval)
  (fs : Content.FS) (p : string) (schema : Content.Schema) (content : string) :
  Content.fs_exists fs p = true -> Content.fs_read fs p = Content.Ret content ->
  Validator.validateMarkdownFile yaml_load fs p schema =
  if negb (Content.truthy (Validator.extractFrontmatter yaml_load content))
  then no_frontmatter_result p
  else Validator.from_safe_parse p (schema (Validator.extractFrontmatter yaml_load content)).
Proof.
  intros Hex Hrd. unfold Validator.validateMarkdownFile. rewrite Hex, Hrd. reflexivity.
Qed.

(** C4 (amended).  For an existing, readable markdown file: the pattern
    finds a frontmatter block exactly when the content begins with [---],
    optional whitespace and a newline, and later contains a newline followed
    by [---] (the closing [---] need not end its line, and a block whose
    closing line directly follows the opening one is not found); when it
    finds none, when [yaml.load] throws on the captured text, or when
    it yields a falsy value, the result is the no-frontmatter error; otherwise
    the result is the schema's verdict on the parsed value. *)
Theorem validateMarkdownFile_frontmatter_cases
  (yaml_load : string -> Content.exn_or Content.jsval) (fs : Content.FS)
  (p : string) (schema : Content.Schema) (content : string)
  (Hex : Content.fs_exists fs p = true) (Hrd : Content.fs_read fs p = Content.Ret content) :
  ((exists g, Validator.frontmatter_match content = Some g) <->
   exists ws g rest,
     list_ascii_of_string content =
       Validator.open_delim ++ ws ++ Chars.nl :: g ++ Validator.close_delim ++ rest /\
     forallb Chars.is_ws ws = true) /\
  (Validator.frontmatter_match content = None ->
   Validator.validateMarkdownFile yaml_load fs p schema = no_frontmatter_result p) /\
  (forall g, Validator.frontmatter_match content = Some g ->
     (forall m, yaml_load g = Content.Raise m ->
        Validator.validateMarkdownFile yaml_load fs p schema = no_frontmatter_result p) /\
     (forall v, yaml_load g = Content.Ret v -> Content.truthy v = false ->
        Validator.validateMarkdownFile yaml_load fs p schema = no_frontmatter_result p) /\
     (forall v, yaml_load g = Content.Ret v -> Content.truthy v = true ->
        Validator.validateMarkdownFile yaml_load fs p schema =
        Validator.from_safe_parse p (schema v))).
Proof.
  rewrite (validateMarkdownFile_read yaml_load fs p schema content Hex Hrd).
  unfold Validator.extractFrontmatter. split; [|split].
  - apply frontmatter_match_found_iff.
  - intros ->. reflexivity.
  - intros g ->. repeat split.
    + intros m ->. reflexivity.
    + intros v -> ->. reflexivity.
    + intros v -> ->. reflexivity.
Qed.

(** C4 counterexample.  ["---\n---\n"] begins with a line [---] followed by a
    line [---], yet the code reports no frontmatter; ["---\ntitle: x\n---x"]
    has no closing line that is exactly [---], yet the code finds a block and
    the file is valid. *)
Lemma validateMarkdownFile_block_mismatch :
  let c1 := ("---" ++ Content.nl_s ++ "---" ++ Content.nl_s)%string in
  let c2 := ("---" ++ Content.nl_s ++ "title: x" ++ Content.nl_s ++ "---x")%string in
  SpecWords.has_frontmatter_block_words c1 = true /\
  Validator.validateMarkdownFile Instances.yaml_object_loader (md_files_fs c1) "p.md"
    Instances.accept_all = no_frontmatter_result "p.md" /\
  SpecWords.has_frontmatter_block_words c2 = false /\
  Validator.valid (Validator.validateMarkdownFile Instances.yaml_object_loader
                     (md_files_fs c2) "p.md" Instances.accept_all) = true.
Proof. vm_compute. repeat split. Qed.

(** The C4 theorem at a file with a well-formed block. *)
Lemma validateMarkdownFile_frontmatter_cases_witness :
  let c := ("---" ++ Content.nl_s ++ "title: x" ++ Content.nl_s ++ "---" ++ Content.nl_s
            ++ "body")%string in
  Content.fs_exists (md_files_fs c) "p.md" = true /\
  Content.fs_read (md_files_fs c) "p.md" = Content.Ret c /\
  Validator.validateMarkdownFile Instances.yaml_object_loader (md_files_fs c) "p.md"
    Instances.accept_all =
  Validator.from_safe_parse "p.md"
    (Instances.accept_all (Content.JObj [("source", Content.JStr "title: x")])).
Proof.
  intros c. split; [reflexivity|]. split; [reflexivity|].
  refine (proj2 (proj2 (proj2 (proj2
    (validateMarkdownFile_frontmatter_cases Instances.yaml_object_loader (md_files_fs c)
       "p.md" Instances.accept_all c eq_refl eq_refl)) "title: x" _)) _ _ _);
    vm_compute; reflexivity.
Defined.

(** ** C5: outcomes of [loadYamlFile] *)

Definition yaml_fs : Content.FS := Instances.files_fs [("d.yaml", "title: x")].

(** C5 counterexample.  A file that parses but lacks the required [title]
    yields ["Schema validation failed: "] followed by Zod's JSON rendering
    of the issues, which does not contain the field-path:message string
    ["title: Required"]. *)
Lemma loadYamlFile_schema_error_is_json :
  DataLoader.loadYamlFile Instances.yaml_object_loader yaml_fs "d.yaml" Instances.reject_title =
  {| DataLoader.success := false; DataLoader.data := None;
     DataLoader.error := Some ("Schema validation failed: "
                               ++ Content.zod_error_message [Instances.title_required])%string |} /\
  Validator.formatZodErrors [Instances.title_required] = ["title: Required"%string] /\
  includes ("Schema validation failed: "
            ++ Content.zod_error_message [Instances.title_required])%string
           "title: Required" = false.
Proof. vm_compute. repeat split. Qed.

(** C5 (amended).  [loadYamlFile] always returns a result record, fixed by
    the outcome of each step on the resolved path: a missing file gives
    ["File not found: "] and the path; an exception of [readFileSync] or
    [yaml.load] gives ["Failed to load file: "] and its message; a schema
    violation gives ["Schema validation failed: "] and Zod's error message
    (the JSON rendering of the issues); success gives the parsed data.  No
    error string of one failure mode is an error string of another. *)
Theorem loadYamlFile_outcomes
  (yaml_load : string -> Content.exn_or Content.jsval) (fs : Content.FS)
  (filePath : string) (schema : Content.Schema) :
  let r := DataLoader.loadYamlFile yaml_load fs filePath schema in
  let ap := Content.fs_resolve fs filePath in
  (Content.fs_exists fs ap = false ->
   r = {| DataLoader.success := false; DataLoader.data := None;
          DataLoader.error := Some ("File not found: " ++ filePath)%string |}) /\
  (Content.fs_exists fs ap = true ->
   (forall m, Content.fs_read fs ap = Content.Raise m -> r = DataLoader.failed_to_load m) /\
   (forall c m, Content.fs_read fs ap = Content.Ret c -> yaml_load c = Content.Raise m ->
      r = DataLoader.failed_to_load m) /\
   (forall c v l, Content.fs_read fs ap = Content.Ret c -> yaml_load c = Content.Ret v ->
      schema v = Content.Issues l ->
      r = {| DataLoader.success := false; DataLoader.data := None;
             DataLoader.error := Some ("Schema validation failed: "
                                       ++ Content.zod_error_message l)%string |}) /\
   (forall c v d, Content.fs_read fs ap = Content.Ret c -> yaml_load c = Content.Ret v ->
      schema v = Content.Parsed d ->
      r = {| DataLoader.success := true; DataLoader.data := Some d;
             DataLoader.error := None |})) /\
  (forall s1 s2 s3 : string,
     ("File not found: " ++ s1)%string <> ("Failed to load file: " ++ s2)%string /\
     ("File not found: " ++ s1)%string <> ("Schema validation failed: " ++ s3)%string /\
     ("Failed to load file: " ++ s2)%string <> ("Schema validation failed: " ++ s3)%string).
Proof.
  intros r ap. subst r ap. unfold DataLoader.loadYamlFile.
  split; [|split].
  - intros H. rewrite H. reflexivity.
  - intros H. rewrite H. cbn [negb].
    split; [|split; [|split]].
    + intros m ->. reflexivity.
    + intros c m -> ->. reflexivity.
    + intros c v l -> -> ->. reflexivity.
    + intros c v d -> -> ->. reflexivity.
  - intros s1 s2 s3. repeat split; discriminate.
Qed.

(** ** C1: change detection *)

Section ChangeFacts.

Import Validator.

Lemma added_modified_step_eq (oldM : manifest) (a m : list string) (f : string) (t : Q) :
  added_modified_step oldM (a, m) (f, t) =
  if negb (js_in f oldM) then ((a ++ [f])%list, m)
  else if strict_neq (own_value oldM f) t then (a, (m ++ [f])%list)
  else (a, m).
Proof. reflexivity. Qed.

Lemma fold_added_modified (oldM l : manifest) (a0 m0 : list string) :
  fold_left (added_modified_step oldM) l (a0, m0) =
  ((a0 ++ map fst (filter (fun kv => negb (js_in (fst kv) oldM)) l))%list,
   (m0 ++ map fst (filter (fun kv => js_in (fst kv) oldM
                                     && strict_neq (own_value oldM (fst kv)) (snd kv)) l))%list).
Proof.
  revert a0 m0; induction l as [|[f t] l IH]; intros a0 m0; cbn [fold_left].
  - now rewrite !app_nil_r.
  - rewrite added_modified_step_eq. cbn [filter fst snd].
    destruct (js_in f oldM) eqn:E1;
      [destruct (strict_neq (own_value oldM f) t) eqn:E2|];
      cbn [negb andb]; rewrite IH; cbn [map fst]; now rewrite <- ?app_assoc.
Qed.

Lemma fold_deleted (newM : manifest) (l acc : list string) :
  fold_left (deleted_step newM) l acc = (acc ++ filter (fun f => negb (js_in f newM)) l)%list.
Proof.
  revert acc; induction l as [|f l IH]; intros acc; cbn [fold_left filter].
  - now rewrite app_nil_r.
  - unfold deleted_step at 2. rewrite IH.
    destruct (negb (js_in f newM)); now rewrite <- ?app_assoc.
Qed.

Definition proto_free (m : manifest) : Prop :=
  forall k, In k (map fst m) -> existsb (String.eqb k) object_prototype_keys = false.

Lemma own_key_iff (m : manifest) (k : string) : own_key m k = true <-> In k (map fst m).
Proof.
  unfold own_key. rewrite existsb_exists, in_map_iff. split.
  - intros (kv & Hin & Hk). apply String.eqb_eq in Hk. eauto.
  - intros (kv & Hk & Hin). exists kv. split; [exact Hin|]. now apply String.eqb_eq.
Qed.

Lemma js_in_own (m : manifest) (k : string) :
  existsb (String.eqb k) object_prototype_keys = false -> js_in k m = own_key m k.
Proof. unfold js_in. intros ->. apply orb_false_r. Qed.

Lemma keys_unique (m : manifest) (k : string) (t1 t2 : Q) :
  NoDup (map fst m) -> In (k, t1) m -> In (k, t2) m -> t1 = t2.
Proof.
  induction m as [|[k' t'] m IH]; simpl; [tauto|].
  intros Hnd H1 H2. inversion Hnd as [|? ? Hnot Hnd']; subst.
  destruct H1 as [H1|H1], H2 as [H2|H2].
  - congruence.
  - injection H1 as -> ->. exfalso. apply Hnot. apply in_map_iff. now exists (k, t2).
  - injection H2 as -> ->. exfalso. apply Hnot. apply in_map_iff. now exists (k, t1).
  - eauto.
Qed.

Lemma own_value_iff (m : manifest) (k : string) (t : Q) :
  NoDup (map fst m) -> own_value m k = Some t <-> In (k, t) m.
Proof.
  intros Hnd. unfold own_value.
  destruct (find (fun kv => (fst kv =? k)%string) m) as [[k' t']|] eqn:E; simpl.
  - apply find_some in E as [Hin Hk]. apply String.eqb_eq in Hk. simpl in Hk. subst k'.
    split.
    + intros H. injection H as ->. exact Hin.
    + intros H. f_equal. exact (keys_unique m k t' t Hnd Hin H).
  - split; [discriminate|]. intros H.
    apply (find_none _ _ E) in H. simpl in H. now rewrite String.eqb_refl in H.
Qed.

(** Without inherited property names among the keys, the three lists are
    exactly as the specification describes. *)
Lemma detectContentChanges_own_keys (oldM newM : manifest) (f : string) :
  NoDup (map fst oldM) -> proto_free oldM -> proto_free newM ->
  (In f (added (detectContentChanges oldM newM)) <->
     In f (map fst newM) /\ ~ In f (map fst oldM)) /\
  (In f (modified (detectContentChanges oldM newM)) <->
     exists t1 t2, In (f, t1) oldM /\ In (f, t2) newM /\ ~ (t1 == t2)%Q) /\
  (In f (deleted (detectContentChanges oldM newM)) <->
     In f (map fst oldM) /\ ~ In f (map fst newM)).
Proof.
  intros Hnd Hpo Hpn. unfold detectContentChanges.
  rewrite fold_added_modified, fold_deleted. cbn [app added modified deleted].
  split; [|split].
  - rewrite in_map_iff. split.
    + intros ([f' t] & Hf & Hin). simpl in Hf. subst f'.
      apply filter_In in Hin as [Hin Hb]. simpl in Hb.
      assert (Hk : In f (map fst newM)) by (apply in_map_iff; now exists (f, t)).
      rewrite js_in_own, negb_true_iff in Hb by (apply Hpn; exact Hk).
      split; [exact Hk|]. rewrite <- own_key_iff. congruence.
    + intros [Hk Hno]. apply in_map_iff in Hk as ([f' t] & Hf & Hin). simpl in Hf. subst f'.
      exists (f, t). split; [reflexivity|]. apply filter_In. split; [exact Hin|].
      simpl. rewrite js_in_own, negb_true_iff
        by (apply Hpn, in_map_iff; now exists (f, t)).
      destruct (own_key oldM f) eqn:E; [|reflexivity].
      exfalso. apply Hno. now apply own_key_iff.
  - rewrite in_map_iff. split.
    + intros ([f' t] & Hf & Hin). simpl in Hf. subst f'.
      apply filter_In in Hin as [Hin Hb]. simpl in Hb.
      apply andb_true_iff in Hb as [Hj Hneq].
      rewrite js_in_own in Hj by (apply Hpn, in_map_iff; now exists (f, t)).
      apply own_key_iff, in_map_iff in Hj as ([f' t1] & Hf & Hin1). simpl in Hf. subst f'.
      exists t1, t. split; [exact Hin1|]. split; [exact Hin|].
      apply (own_value_iff oldM f t1 Hnd) in Hin1. rewrite Hin1 in Hneq. simpl in Hneq.
      apply negb_true_iff in Hneq. intros Heq. apply Qeq_bool_iff in Heq. congruence.
    + intros (t1 & t & Hin1 & Hin & Hneq). exists (f, t). split; [reflexivity|].
      apply filter_In. split; [exact Hin|]. simpl.
      assert (Hk : In f (map fst oldM)) by (apply in_map_iff; now exists (f, t1)).
      rewrite js_in_own by (apply Hpn, in_map_iff; now exists (f, t)).
      apply own_key_iff in Hk. rewrite Hk.
      apply (own_value_iff oldM f t1 Hnd) in Hin1. rewrite Hin1. simpl.
      apply negb_true_iff. destruct (Qeq_bool t1 t) eqn:E; [|reflexivity].
      exfalso. apply Hneq. now apply Qeq_bool_iff.
  - rewrite filter_In. split.
    + intros [Hk Hb]. rewrite js_in_own, negb_true_iff in Hb by (apply Hpo; exact Hk).
      split; [exact Hk|]. rewrite <- own_key_iff. congruence.
    + intros [Hk Hno]. split; [exact Hk|].
      rewrite js_in_own, negb_true_iff by (apply Hpo; exact Hk).
      destruct (own_key newM f) eqn:E; [|reflexivity].
      exfalso. apply Hno. now apply own_key_iff.
Qed.

End ChangeFacts.

(** C1 (code bug).  The membership test [file in oldManifest] also sees the
    properties inherited from [Object.prototype]: a new path ["toString"]
    is reported as modified instead of added, and a path ["toString"] that
    only the old manifest has is reported in no list, not as deleted. *)
Theorem detectContentChanges_prototype_key :
  Validator.detectContentChanges [] [("toString", 1%Q)] =
    {| Validator.added := []; Validator.modified := ["toString"]; Validator.deleted := [] |} /\
  Validator.detectContentChanges [("toString", 1%Q)] [] =
    {| Validator.added := []; Validator.modified := []; Validator.deleted := [] |}.
Proof. split; vm_compute; reflexivity. Qed.

(* ================================================================== *)
(** * Further properties of the code *)

(** ** Minification thresholds *)

Lemma js_div_lt_inv (a b : nat) (d : positive) :
  0 < b -> js_lt (js_div a b) (Fin (1 # d)%Q) = (Pos.to_nat d * a <? b).
Proof.
  intros Hb. destruct b as [|b]; [lia|]. cbn [js_div js_lt].
  assert (Hp : Z.pos (Pos.of_nat (S b)) = Z.of_nat (S b)).
  { rewrite <- (Nat2Pos.id (S b)) at 2 by discriminate. now rewrite positive_nat_Z. }
  destruct (Qle_bool (1 # d) (Z.of_nat a # Pos.of_nat (S b))) eqn:E; cbn [negb]; symmetry.
  - apply Nat.ltb_ge. apply Qle_bool_iff in E. unfold Qle in E. cbn [Qnum Qden] in E.
    rewrite Z.mul_1_l, Hp, <- positive_nat_Z in E. lia.
  - apply Nat.ltb_lt. assert (E' : ~ (1 # d <= Z.of_nat a # Pos.of_nat (S b))%Q)
      by (intros H; apply Qle_bool_iff in H; congruence).
    unfold Qle in E'. cbn [Qnum Qden] in E'.
    rewrite Z.mul_1_l, Hp, <- positive_nat_Z in E'. lia.
Qed.

(** The three minification heuristics compare counts with the length in
    exact integer arithmetic: HTML is minified when shorter than 200
    characters or when 50 times its newline count is below its length; JS
    when shorter than 100 characters or when 200 times its newlines plus
    comment markers is below its length; CSS when 1000 times its number of
    whitespace runs is below its length (so never when empty). *)
Theorem minified_checks_integer_form (content : string) :
  let s := list_ascii_of_string content in
  Build.isHtmlMinified content =
    (length s <? 200) || (50 * Build.count_char Chars.nl s <? length s) /\
  Build.isJsMinified content =
    (length s <? 100)
    || (200 * (Build.count_char Chars.nl s + Build.comment_markers s) <? length s) /\
  Build.isCssMinified content = (1000 * Build.ws_runs s <? length s).
Proof.
  intros s. unfold Build.isHtmlMinified, Build.isJsMinified, Build.isCssMinified.
  fold s. cbn zeta. split; [|split].
  - destruct (length s <? 200) eqn:E; [reflexivity|]. apply Nat.ltb_ge in E.
    apply (js_div_lt_inv _ _ 50). lia.
  - destruct (length s <? 100) eqn:E; [reflexivity|]. apply Nat.ltb_ge in E.
    apply (js_div_lt_inv _ _ 200). lia.
  - destruct (length s) as [|n] eqn:E.
    + destruct (Build.ws_runs s); reflexivity.
    + apply (js_div_lt_inv _ _ 1000). lia.
Qed.

(** ** Build report summary *)

Section ReportFacts.

Import Build.

Lemma of_type_map (t : asset_type) (l : list (AssetInfo * string)) :
  map fst (of_type t l) = filter (fun a => asset_type_eqb (type a) t) (map fst l).
Proof.
  induction l as [|[a c] l IH]; simpl; [reflexivity|].
  destruct (asset_type_eqb (type a) t); simpl; now rewrite IH.
Qed.

Lemma of_type_partition (l : list (AssetInfo * string)) :
  length (of_type Html l) + length (of_type Css l) + length (of_type Js l)
  + length (of_type Image l) + length (of_type Other l) = length l.
Proof.
  induction l as [|[a c] l IH]; simpl; [reflexivity|].
  unfold of_type in *. simpl.
  destruct (type a); simpl; lia.
Qed.

Lemma fold_sizes_shift (l : list (AssetInfo * string)) (k : nat) :
  fold_left (fun acc a => acc + size (fst a)) l k = k + sum_sizes l.
Proof.
  unfold sum_sizes. revert k; induction l as [|a l IH]; intros k; simpl; [lia|].
  rewrite (IH (k + size (fst a))), (IH (size (fst a))). lia.
Qed.

Lemma sum_sizes_list (l : list (AssetInfo * string)) :
  sum_sizes l = list_sum (map size (map fst l)).
Proof.
  induction l as [|a l IH]; [reflexivity|].
  unfold sum_sizes. cbn [fold_left map list_sum]. rewrite fold_sizes_shift, IH. simpl. lia.
Qed.

Lemma sum_sizes_bounds (l : list (AssetInfo * string)) (lo hi : nat) :
  (forall a, In a l -> lo <= size (fst a) <= hi) ->
  length l * lo <= sum_sizes l <= length l * hi.
Proof.
  induction l as [|a l IH]; intros H; [unfold sum_sizes; simpl; lia|].
  unfold sum_sizes. cbn [fold_left length]. rewrite fold_sizes_shift.
  assert (Ha := H a (or_introl eq_refl)).
  assert (Hl : forall b, In b l -> lo <= size (fst b) <= hi) by (intros b Hb; apply H; now right).
  specialize (IH Hl). cbn [length]. nia.
Qed.

Lemma average_size_bounds (l : list (AssetInfo * string)) (lo hi : nat) :
  l <> [] -> (forall a, In a l -> lo <= size (fst a) <= hi) ->
  lo <= average_size l <= hi.
Proof.
  intros Hne H. unfold average_size.
  destruct (length l) as [|n] eqn:E; [destruct l; [contradiction|discriminate]|].
  assert (Hs := sum_sizes_bounds l lo hi H). rewrite E in Hs.
  split.
  - apply Nat.div_le_lower_bound; lia.
  - apply Nat.lt_succ_r. apply Nat.Div0.div_lt_upper_bound; lia.
Qed.

Lemma collect_entry_dir (r n : string) (ch : list entry) :
  collect_entry r (EDir n ch) = collect_entries (rel r n) ch.
Proof.
  cbn [collect_entry]. generalize (rel r n) as r'.
  induction ch as [|e ch IH]; intros r'; simpl; [reflexivity|]. f_equal. apply IH.
Qed.

End ReportFacts.

(** The number of regular files of a build-output tree. *)
Fixpoint entry_files (e : Build.entry) : nat :=
  match e with
  | Build.EFile _ _ => 1
  | Build.EDir _ children => list_sum (map entry_files children)
  end.

Lemma collect_entry_length : forall (e : Build.entry) (r : string),
  length (Build.collect_entry r e) = entry_files e.
Proof.
  fix IH 1. intros [n c|n ch] r; [reflexivity|].
  rewrite collect_entry_dir. cbn [entry_files]. generalize (Build.rel r n) as r'.
  revert ch. fix IHl 1. intros [|e ch] r'; [reflexivity|].
  cbn [Build.collect_entries map list_sum]. rewrite length_app, IH, IHl. reflexivity.
Qed.

Lemma collect_entries_length (es : list Build.entry) (r : string) :
  length (Build.collect_entries r es) = list_sum (map entry_files es).
Proof.
  induction es as [|e es IH]; [reflexivity|].
  cbn [Build.collect_entries map list_sum]. rewrite length_app, IH, collect_entry_length.
  reflexivity.
Qed.

(** The average size the summary gives for a type of file. *)
Definition summary_average (s : Build.Summary) (t : Build.asset_type) : nat :=
  match t with
  | Build.Html => Build.averageHtmlSize s
  | Build.Css => Build.averageCssSize s
  | Build.Js => Build.averageJsSize s
  | _ => 0
  end.

(** The report's counts agree with its asset list: one asset per regular
    file of the tree (none when the directory does not exist), the five
    per-type counts add up to the total, no more assets are hashed than
    exist, and the total size is the sum of the asset sizes. *)
Theorem generateBuildReport_summary_counts
  (fs_dir : string -> option (list Build.entry)) (outDir : string) :
  let rep := Build.generateBuildReport fs_dir outDir in
  let s := Build.summary rep in
  Build.totalFiles s = length (Build.assets rep) /\
  Build.totalFiles s =
    match fs_dir outDir with None => 0 | Some es => list_sum (map entry_files es) end /\
  Build.htmlFiles s + Build.cssFiles s + Build.jsFiles s + Build.imageFiles s
    + Build.otherFiles s = Build.totalFiles s /\
  Build.hashedAssets s <= Build.totalFiles s /\
  Build.totalSize s = list_sum (map Build.size (Build.assets rep)).
Proof.
  intros rep s. subst rep s. unfold Build.generateBuildReport. cbn zeta.
  cbn [Build.summary Build.totalFiles Build.assets Build.htmlFiles Build.cssFiles
       Build.jsFiles Build.imageFiles Build.otherFiles Build.hashedAssets Build.totalSize].
  set (l := Build.collectFiles (fs_dir outDir)).
  split; [now rewrite length_map|]. split; [|split; [|split]].
  - subst l. unfold Build.collectFiles. destruct (fs_dir outDir) as [es|]; [|reflexivity].
    apply collect_entries_length.
  - apply of_type_partition.
  - apply (Nat.le_trans _ _ _ (filter_length_le _ _)). lia.
  - apply sum_sizes_list.
Qed.

(** Each average size of the summary is 0 when there is no file of that
    type, and otherwise lies between the smallest and the largest size of
    the files of that type: rounding the mean never leaves that range. *)
Theorem generateBuildReport_average_bounds
  (fs_dir : string -> option (list Build.entry)) (outDir : string)
  (t : Build.asset_type) (lo hi : nat)
  (Ht : In t [Build.Html; Build.Css; Build.Js]) :
  let rep := Build.generateBuildReport fs_dir outDir in
  let files := filter (fun a => Build.asset_type_eqb (Build.type a) t) (Build.assets rep) in
  (files = [] -> summary_average (Build.summary rep) t = 0) /\
  (files <> [] -> (forall a, In a files -> lo <= Build.size a <= hi) ->
   lo <= summary_average (Build.summary rep) t <= hi).
Proof.
  intros rep files. subst rep files.
  set (l := Build.collectFiles (fs_dir outDir)).
  assert (Hav : summary_average
                  (Build.summary (Build.generateBuildReport fs_dir outDir)) t
                = Build.average_size (Build.of_type t l))
    by (destruct Ht as [<-|[<-|[<-|[]]]]; reflexivity).
  assert (Has : Build.assets (Build.generateBuildReport fs_dir outDir) = map fst l)
    by reflexivity.
  rewrite Has.
  rewrite Hav, <- of_type_map. split.
  - intros Hnil. destruct (Build.of_type t l); [reflexivity|discriminate].
  - intros Hne Hb. apply average_size_bounds.
    + intros E. apply Hne. now rewrite E.
    + intros a Ha. apply Hb. now apply in_map.
Qed.

Lemma generateBuildReport_average_bounds_witness :
  In Build.Html [Build.Html; Build.Css; Build.Js] /\
  3 <= summary_average
         (Build.summary (Build.generateBuildReport
            (Instances.out_tree [Build.EFile "index.html" "abc";
                                 Build.EFile "about.html" "abcdef"]) "dist")) Build.Html <= 6.
Proof.
  split; [left; reflexivity|].
  apply (proj2 (generateBuildReport_average_bounds
                  (Instances.out_tree [Build.EFile "index.html" "abc";
                                       Build.EFile "about.html" "abcdef"])
                  "dist" Build.Html 3 6 (or_introl eq_refl))).
  - vm_compute. discriminate.
  - vm_compute. intros a [<-|[<-|[]]]; vm_compute; lia.
Defined.

Section NoCode.

Import Build.

Variable l : list (AssetInfo * string).
Hypothesis Hno : forall a, In a (map fst l) -> type a = Image \/ type a = Other.

Lemma of_type_no_code (t : asset_type) :
  t = Html \/ t = Css \/ t = Js -> of_type t l = [].
Proof.
  intros Ht. unfold of_type. revert Hno.
  induction l as [|[a c] l' IH]; intros H; [reflexivity|].
  cbn [filter fst]. rewrite IH.
  - destruct (H a (or_introl eq_refl)) as [E|E]; rewrite E;
      destruct Ht as [ -> | [ -> | -> ]]; reflexivity.
  - intros b Hb. apply H. now right.
Qed.

Lemma assets_folder_no_code :
  filter (fun a => starts_with (path (fst a)) "assets/"
                   && (asset_type_eqb (type (fst a)) Css
                       || asset_type_eqb (type (fst a)) Js)) l = [].
Proof.
  revert Hno. induction l as [|[a c] l' IH]; intros H; [reflexivity|].
  cbn [filter fst]. rewrite IH.
  - destruct (H a (or_introl eq_refl)) as [E|E]; rewrite E;
      destruct (starts_with (path a) "assets/"); reflexivity.
  - intros b Hb. apply H. now right.
Qed.

End NoCode.

(** When the output holds no HTML, CSS or JavaScript file (in particular
    when the directory does not exist), every check passes vacuously:
    the validation is successful with no error, whatever else is there. *)
Theorem validateBuildOptimization_without_code
  (fs_dir : string -> option (list Build.entry)) (outDir : string)
  (Hno : forall a, In a (map fst (Build.collectFiles (fs_dir outDir))) ->
         Build.type a = Build.Image \/ Build.type a = Build.Other) :
  let v := Build.validateBuildOptimization fs_dir outDir in
  Build.valid v = true /\ Build.errors v = [] /\
  Build.htmlFiles (Build.summary (Build.report v)) = 0 /\
  Build.cssFiles (Build.summary (Build.report v)) = 0 /\
  Build.jsFiles (Build.summary (Build.report v)) = 0.
Proof.
  intros v. subst v.
  assert (Hnone := fun t Ht => of_type_no_code _ Hno t Ht).
  assert (Hfl := assets_folder_no_code _ Hno).
  unfold Build.validateBuildOptimization, Build.generateBuildReport. cbn zeta.
  rewrite Hfl, (Hnone Build.Html), (Hnone Build.Css), (Hnone Build.Js) by tauto.
  repeat split.
Qed.

Lemma validateBuildOptimization_without_code_witness :
  (forall a, In a (map fst (Build.collectFiles
                              (Instances.out_tree [Build.EFile "logo.png" "x"] "dist"))) ->
     Build.type a = Build.Image \/ Build.type a = Build.Other) /\
  Build.valid (Build.validateBuildOptimization
                 (Instances.out_tree [Build.EFile "logo.png" "x"]) "dist") = true.
Proof.
  assert (H : forall a, In a (map fst (Build.collectFiles
                              (Instances.out_tree [Build.EFile "logo.png" "x"] "dist"))) ->
              Build.type a = Build.Image \/ Build.type a = Build.Other).
  { vm_compute. intros a [<-|[]]. left. reflexivity. }
  split; [exact H|].
  exact (proj1 (validateBuildOptimization_without_code
                  (Instances.out_tree [Build.EFile "logo.png" "x"]) "dist" H)).
Defined.

(** ** Content manifests *)

Section ManifestFacts.

Import Content Manifest.






End ManifestFacts.


Lemma filter_all_false {A : Type} (f : A -> bool) (l : list A) :
  (forall x, In x l -> f x = false) -> filter f l = [].
Proof.
  induction l as [|x l IH]; intros H; [reflexivity|]. cbn [filter].
  rewrite (H x (or_introl eq_refl)). apply IH. intros y Hy. apply H. now right.
Qed.



(** ** Testimonials of a course *)

Lemma filter_idem {A : Type} (f : A -> bool) (l : list A) :
  filter f (filter f l) = filter f l.
Proof.
  induction l as [|x l IH]; [reflexivity|]. cbn [filter].
  destruct (f x) eqn:E; [cbn [filter]; rewrite E|]; now rewrite IH.
Qed.

(** [getTestimonialsForCourse] returns, in order, exactly the testimonials
    of the course; [calculateAverageRating] depends only on that list (it
    gives the same result on it) and is [null] exactly when it is empty. *)
Theorem getTestimonialsForCourse_average (ts : list DataLoader.Testimonial) (slug : string) :
  let course := DataLoader.getTestimonialsForCourse DataLoader.courseSlug ts slug in
  (forall t, In t course <-> In t ts /\ DataLoader.courseSlug t = slug) /\
  DataLoader.calculateAverageRating course slug = DataLoader.calculateAverageRating ts slug /\
  (DataLoader.calculateAverageRating ts slug = None <-> course = []).
Proof.
  intros course. subst course. unfold DataLoader.getTestimonialsForCourse.
  split; [|split].
  - intros t. rewrite filter_In. now rewrite String.eqb_eq.
  - unfold DataLoader.calculateAverageRating. rewrite filter_idem. reflexivity.
  - unfold DataLoader.calculateAverageRating. cbn zeta.
    destruct (filter _ ts) as [|t l]; cbn [length Nat.eqb]; split; congruence.
Qed.

(** ** The YAML validator and the YAML loader agree *)

(** For a path that [path.resolve] leaves unchanged, [validateYamlFile]
    accepts a file exactly when [loadYamlFile] loads it, and both report a
    missing file with the same message ["File not found: "] and the path. *)
Theorem validateYamlFile_agrees_with_loadYamlFile
  (yaml_load : string -> Content.exn_or Content.jsval) (fs : Content.FS)
  (p : string) (schema : Content.Schema) (Hres : Content.fs_resolve fs p = p) :
  Validator.valid (Validator.validateYamlFile yaml_load fs p schema) =
    DataLoader.success (DataLoader.loadYamlFile yaml_load fs p schema) /\
  (Content.fs_exists fs p = false ->
   Validator.errors (Validator.validateYamlFile yaml_load fs p schema) =
   option_map (fun e => [e]) (DataLoader.error (DataLoader.loadYamlFile yaml_load fs p schema))).
Proof.
  unfold Validator.validateYamlFile, DataLoader.loadYamlFile. cbn zeta. rewrite Hres.
  split.
  - destruct (Content.fs_exists fs p); [|reflexivity]. cbn [negb].
    destruct (Content.fs_read fs p) as [c|m]; [|reflexivity].
    destruct (yaml_load c) as [v|m]; [|reflexivity].
    destruct (schema v); reflexivity.
  - intros ->. reflexivity.
Qed.

Lemma validateYamlFile_agrees_with_loadYamlFile_witness :
  Content.fs_resolve yaml_fs "d.yaml" = "d.yaml" /\
  Validator.valid (Validator.validateYamlFile Instances.yaml_object_loader yaml_fs "d.yaml"
                     Instances.accept_all) =
  DataLoader.success (DataLoader.loadYamlFile Instances.yaml_object_loader yaml_fs "d.yaml"
                        Instances.accept_all).
Proof.
  split; [reflexivity|].
  exact (proj1 (validateYamlFile_agrees_with_loadYamlFile Instances.yaml_object_loader
                  yaml_fs "d.yaml" Instances.accept_all eq_refl)).
Defined.

(** ** The [.gitkeep] test of [validateAllContent] *)

Lemma list_ascii_of_string_app (a b : string) :
  list_ascii_of_string (a ++ b) = (list_ascii_of_string a ++ list_ascii_of_string b)%list.
Proof. induction a as [|c a IH]; simpl; [reflexivity|]. now rewrite IH. Qed.

Lemma take_while_all (f : ascii -> bool) (l r : list ascii) (c : ascii) :
  forallb f l = true -> f c = false ->
  Path.take_while f (l ++ c :: r) = l.
Proof.
  induction l as [|x l IH]; simpl; intros Hl Hc.
  - now rewrite Hc.
  - apply andb_true_iff in Hl as [Hx Hl]. rewrite Hx. f_equal. now apply IH.
Qed.

(** The last component of [path.join(dir, name)] is [name], for a file
    name: non-empty and without [/]. *)
Lemma basename_join (dir name : string) :
  name <> ""%string ->
  forallb (fun c => negb (Path.is_slash c)) (list_ascii_of_string name) = true ->
  Path.basename (Path.join dir name) = name.
Proof.
  intros Hne Hns. unfold Path.basename, Path.last_part, Path.join.
  rewrite !list_ascii_of_string_app. cbn [list_ascii_of_string app].
  rewrite rev_app_distr. cbn [rev]. rewrite <- app_assoc.
  destruct (rev (list_ascii_of_string name)) as [|c r] eqn:Er.
  { exfalso. apply Hne. apply (f_equal (@rev ascii)) in Er. rewrite rev_involutive in Er.
    destruct name; [reflexivity|discriminate]. }
  assert (Hall : forallb (fun c => negb (Path.is_slash c)) (c :: r) = true).
  { rewrite <- Er, forallb_forall. intros x Hx. apply in_rev in Hx.
    rewrite forallb_forall in Hns. now apply Hns. }
  cbn [app Path.drop_while].
  assert (Hc : Path.is_slash c = false).
  { cbn [forallb] in Hall. apply andb_true_iff in Hall as [Hc _]. now apply negb_true_iff. }
  rewrite Hc. rewrite app_comm_cons, take_while_all; [| exact Hall | reflexivity].
  rewrite <- Er, rev_involutive. apply string_of_list_ascii_of_string.
Qed.

(** With file names as a file system gives them (non-empty, without [/]),
    the test [path.basename(file) === '.gitkeep'] in [validateAllContent]
    never removes a file: [.gitkeep] has no extension, so
    [getFilesInDirectory(productsDir, ['.md', '.mdx'])] never returns it,
    and every product file found is validated. *)
Theorem validateAllContent_gitkeep_test_inert
  (yaml_load : string -> Content.exn_or Content.jsval)
  (sr st sre sp sprod : Content.Schema) (fs : Content.FS) (basePath : string)
  (Hnames : forall e, In e (Content.fs_readdir fs (Validator.productsDir basePath)) ->
            Content.d_name e <> ""%string /\
            forallb (fun c => negb (Path.is_slash c))
                    (list_ascii_of_string (Content.d_name e)) = true) :
  (forall f, In f (Validator.getFilesInDirectory fs (Validator.productsDir basePath)
                     [".md"; ".mdx"]) ->
     (Path.basename f =? ".gitkeep")%string = false) /\
  Validator.results (Validator.validateAllContent yaml_load sr st sre sp sprod fs basePath) =
    (flat_map (fun ps => if Content.fs_exists fs (fst ps)
                         then [Validator.validateYamlFile yaml_load fs (fst ps) (snd ps)]
                         else [])
              (Validator.yamlValidations sr st sre sp basePath)
     ++ map (fun f => Validator.validateMarkdownFile yaml_load fs f sprod)
            (Validator.getFilesInDirectory fs (Validator.productsDir basePath)
               [".md"; ".mdx"]))%list.
Proof.
  assert (Hf : forall f, In f (Validator.getFilesInDirectory fs (Validator.productsDir basePath)
                                [".md"; ".mdx"]) ->
               (Path.basename f =? ".gitkeep")%string = false).
  { intros f. unfold Validator.getFilesInDirectory.
    destruct (Content.fs_exists fs _); cbn [negb]; [|intros []].
    rewrite in_flat_map. intros (e & He & Hin).
    destruct (Content.d_isFile e && _) eqn:Hext; [|destruct Hin].
    destruct Hin as [<-|[]]. destruct (Hnames e He) as [Hne Hns].
    rewrite basename_join by assumption.
    destruct (String.eqb_spec (Content.d_name e) ".gitkeep") as [E|E]; [|reflexivity].
    rewrite E in Hext. vm_compute in Hext. destruct e as [n []]; discriminate Hext. }
  split; [exact Hf|].
  unfold Validator.validateAllContent. cbn zeta. cbn [Validator.results]. f_equal.
  revert Hf. generalize (Validator.getFilesInDirectory fs (Validator.productsDir basePath)
                                                       [".md"; ".mdx"]).
  induction l as [|f l IH]; intros H; [reflexivity|]. cbn [flat_map map].
  rewrite (H f (or_introl eq_refl)). cbn [app]. f_equal. apply IH.
  intros g Hg. apply H. now right.
Qed.

(** A product directory holding [.gitkeep] and [a.md]. *)
Definition products_fs : Content.FS :=
  {| Content.fs_exists := fun _ => true;
     Content.fs_read := fun _ => Content.Ret "";
     Content.fs_readdir := fun _ => [{| Content.d_name := ".gitkeep"; Content.d_isFile := true |};
                                     {| Content.d_name := "a.md"; Content.d_isFile := true |}];
     Content.fs_resolve := fun p => p |}.

Lemma validateAllContent_gitkeep_test_inert_witness :
  (forall e, In e (Content.fs_readdir products_fs (Validator.productsDir ".")) ->
     Content.d_name e <> ""%string /\
     forallb (fun c => negb (Path.is_slash c)) (list_ascii_of_string (Content.d_name e)) = true)
  /\ In "./src/data/products/a.md"%string
       (Validator.getFilesInDirectory products_fs (Validator.productsDir ".") [".md"; ".mdx"])
  /\ (Path.basename "./src/data/products/a.md" =? ".gitkeep")%string = false.
Proof.
  assert (H : forall e, In e (Content.fs_readdir products_fs (Validator.productsDir ".")) ->
     Content.d_name e <> ""%string /\
     forallb (fun c => negb (Path.is_slash c)) (list_ascii_of_string (Content.d_name e)) = true).
  { intros e [<-|[<-|[]]]; split; (discriminate || reflexivity). }
  assert (Hin : In "./src/data/products/a.md"%string
       (Validator.getFilesInDirectory products_fs (Validator.productsDir ".") [".md"; ".mdx"]))
    by (vm_compute; left; reflexivity).
  split; [exact H|]. split; [exact Hin|].
  exact (proj1 (validateAllContent_gitkeep_test_inert Instances.yaml_object_loader
              Instances.accept_all Instances.accept_all Instances.accept_all
              Instances.accept_all Instances.accept_all products_fs "." H) _ Hin).
Defined.

(** ** The stable sort of [Array.prototype.sort] *)

Section JsSort.

Local Open Scope Q_scope.

Variable A : Type.
Variable cmp : A -> A -> Q.
Hypothesis cmp_antisym : forall a b, cmp a b == - cmp b a.
Hypothesis cmp_trans : forall a b c, cmp a b <= 0 -> cmp b c <= 0 -> cmp a c <= 0.

Definition le_cmp (a b : A) : Prop := cmp a b <= 0.

Lemma insert_perm (x : A) (l : list A) : Permutation (Showcase.insert cmp x l) (x :: l).
Proof.
  induction l as [|y l IH]; simpl; [constructor; constructor|].
  destruct (negb (Qle_bool 0 (cmp x y))); [reflexivity|].
  rewrite IH. constructor.
Qed.

Lemma insert_sorted (x : A) (l : list A) :
  StronglySorted le_cmp l -> StronglySorted le_cmp (Showcase.insert cmp x l).
Proof.
  induction l as [|y l IH]; intros Hs; simpl.
  - repeat constructor.
  - apply StronglySorted_inv in Hs as [Hs Hy].
    destruct (Qle_bool 0 (cmp x y)) eqn:E; simpl.
    + apply Qle_bool_iff in E.
      constructor; [now apply IH|].
      apply Forall_forall. intros z Hz.
      apply (Permutation_in _ (insert_perm x l)) in Hz as [<-|Hz].
      * unfold le_cmp. pose proof (cmp_antisym y x). lra.
      * now apply (proj1 (Forall_forall _ _) Hy).
    + assert (Hlt : cmp x y < 0).
      { apply Qnot_le_lt. intros H. apply Qle_bool_iff in H. congruence. }
      constructor; [constructor; assumption|].
      constructor; [unfold le_cmp; lra|].
      apply Forall_forall. intros z Hz.
      apply (cmp_trans x y z); [lra|].
      now apply (proj1 (Forall_forall _ _) Hy).
Qed.

Lemma js_sort_fold_perm (l acc : list A) :
  Permutation (fold_left (fun acc x => Showcase.insert cmp x acc) l acc) (l ++ acc).
Proof.
  revert acc; induction l as [|x l IH]; intros acc; simpl; [reflexivity|].
  rewrite IH, insert_perm. apply Permutation_sym, Permutation_middle.
Qed.

Lemma js_sort_perm (l : list A) : Permutation (Showcase.js_sort cmp l) l.
Proof.
  unfold Showcase.js_sort. rewrite js_sort_fold_perm. now rewrite app_nil_r.
Qed.

Lemma js_sort_fold_sorted (l acc : list A) :
  StronglySorted le_cmp acc ->
  StronglySorted le_cmp (fold_left (fun acc x => Showcase.insert cmp x acc) l acc).
Proof.
  revert acc; induction l as [|x l IH]; intros acc Hs; simpl; [exact Hs|].
  apply IH, insert_sorted, Hs.
Qed.

Lemma js_sort_sorted (l : list A) : StronglySorted le_cmp (Showcase.js_sort cmp l).
Proof. apply js_sort_fold_sorted. constructor. Qed.

(** Elements the comparator ties with [x]. *)
Definition tie (x y : A) : bool := Qeq_bool (cmp x y) 0.

Lemma tie_trans (x y z : A) : tie x y = true -> tie y z = true -> tie x z = true.
Proof.
  unfold tie; intros H1 H2. apply Qeq_bool_iff in H1, H2. apply Qeq_bool_iff.
  pose proof (cmp_trans x y z) as T1. pose proof (cmp_trans z y x) as T2.
  pose proof (cmp_antisym x y). pose proof (cmp_antisym y z). pose proof (cmp_antisym z x).
  assert (cmp x z <= 0) by (apply T1; lra).
  assert (cmp z x <= 0) by (apply T2; lra).
  lra.
Qed.

Lemma insert_filter_tie (x y : A) (acc : list A) :
  StronglySorted le_cmp acc ->
  filter (tie x) (Showcase.insert cmp y acc) =
  filter (tie x) acc ++ (if tie x y then [y] else []).
Proof.
  induction acc as [|z acc IH]; intros Hs.
  - reflexivity.
  - apply StronglySorted_inv in Hs as [Hs Hz].
    cbn [Showcase.insert]. destruct (Qle_bool 0 (cmp y z)) eqn:E; cbn [negb].
    + cbn [filter]. rewrite (IH Hs). destruct (tie x z); reflexivity.
    + assert (Hlt : cmp y z < 0).
      { apply Qnot_le_lt. intros H. apply Qle_bool_iff in H. congruence. }
      change (filter (tie x) (y :: z :: acc)) with
        (if tie x y then y :: filter (tie x) (z :: acc) else filter (tie x) (z :: acc)).
      destruct (tie x y) eqn:Ty.
      * (* nothing in [z :: acc] ties with [y]: all of it is strictly greater *)
        assert (Hno : forall w, In w (z :: acc) -> tie x w = false).
        { intros w Hw. destruct (tie x w) eqn:Tw; [|reflexivity].
          assert (Tyw : tie y w = true).
          { apply (tie_trans y x w); [|exact Tw].
            unfold tie in *. apply Qeq_bool_iff in Ty. apply Qeq_bool_iff.
            pose proof (cmp_antisym y x). lra. }
          unfold tie in Tyw. apply Qeq_bool_iff in Tyw.
          destruct Hw as [<-|Hw]; [lra|].
          pose proof (proj1 (Forall_forall _ _) Hz w Hw) as Hzw. unfold le_cmp in Hzw.
          pose proof (cmp_antisym w y). pose proof (cmp_antisym z y).
          assert (cmp z y <= 0) by (apply (cmp_trans z w y); lra).
          lra. }
        rewrite (filter_all_false _ _ Hno). reflexivity.
      * now rewrite app_nil_r.
Qed.

Lemma js_sort_fold_filter_tie (x : A) (l acc : list A) :
  StronglySorted le_cmp acc ->
  filter (tie x) (fold_left (fun acc y => Showcase.insert cmp y acc) l acc) =
  filter (tie x) acc ++ filter (tie x) l.
Proof.
  revert acc; induction l as [|y l IH]; intros acc Hs; cbn [fold_left].
  - now rewrite app_nil_r.
  - rewrite IH by (now apply insert_sorted).
    rewrite insert_filter_tie by exact Hs.
    rewrite <- app_assoc. cbn [filter]. destruct (tie x y); reflexivity.
Qed.

(** Stability: the elements tied with [x] keep their input order. *)
Lemma js_sort_stable (x : A) (l : list A) :
  filter (tie x) (Showcase.js_sort cmp l) = filter (tie x) l.
Proof.
  unfold Showcase.js_sort. rewrite js_sort_fold_filter_tie by constructor. reflexivity.
Qed.

End JsSort.

Section ShowcaseFacts.

Local Open Scope Q_scope.

Lemma repo_cmp_antisym (a b : Showcase.Repository) :
  Showcase.repo_cmp a b == - Showcase.repo_cmp b a.
Proof.
  unfold Showcase.repo_cmp.
  destruct (Showcase.r_featured a), (Showcase.r_featured b); cbn; lra.
Qed.

Lemma repo_cmp_trans (a b c : Showcase.Repository) :
  Showcase.repo_cmp a b <= 0 -> Showcase.repo_cmp b c <= 0 -> Showcase.repo_cmp a c <= 0.
Proof.
  unfold Showcase.repo_cmp.
  destruct (Showcase.r_featured a), (Showcase.r_featured b), (Showcase.r_featured c);
    cbn; intros; lra.
Qed.

Lemma repo_le_cmp (a b : Showcase.Repository) :
  le_cmp _ Showcase.repo_cmp a b ->
  (Showcase.r_featured a = true \/ Showcase.r_featured b = false) /\
  (Showcase.r_featured a = Showcase.r_featured b ->
   Showcase.stars_or_0 b <= Showcase.stars_or_0 a).
Proof.
  unfold le_cmp, Showcase.repo_cmp.
  destruct (Showcase.r_featured a), (Showcase.r_featured b); cbn; intros H;
    (split; [tauto|intros E; try discriminate E; lra]) || lra.
Qed.

Lemma repo_tie (x y : Showcase.Repository) :
  tie _ Showcase.repo_cmp x y =
  Bool.eqb (Showcase.r_featured x) (Showcase.r_featured y) &&
  Qeq_bool (Showcase.stars_or_0 x) (Showcase.stars_or_0 y).
Proof.
  unfold tie, Showcase.repo_cmp.
  destruct (Showcase.r_featured x), (Showcase.r_featured y); cbn;
    try reflexivity;
    apply eq_true_iff_eq; rewrite !Qeq_bool_iff; split; intros; lra.
Qed.

Lemma pub_cmp_antisym (a b : Showcase.Publication) :
  Showcase.pub_cmp a b == - Showcase.pub_cmp b a.
Proof. unfold Showcase.pub_cmp. lra. Qed.

Lemma pub_cmp_trans (a b c : Showcase.Publication) :
  Showcase.pub_cmp a b <= 0 -> Showcase.pub_cmp b c <= 0 -> Showcase.pub_cmp a c <= 0.
Proof. unfold Showcase.pub_cmp. lra. Qed.

Lemma pub_tie (x y : Showcase.Publication) :
  tie _ Showcase.pub_cmp x y = Qeq_bool (Showcase.p_year x) (Showcase.p_year y).
Proof.
  unfold tie, Showcase.pub_cmp.
  apply eq_true_iff_eq; rewrite !Qeq_bool_iff; split; intros; lra.
Qed.

Lemma StronglySorted_impl {T : Type} (R S : T -> T -> Prop) (l : list T) :
  (forall a b, R a b -> S a b) -> StronglySorted R l -> StronglySorted S l.
Proof.
  intros HRS; induction 1 as [|a l Hs IH Hf]; constructor; [exact IH|].
  eapply Forall_impl; [intros b; apply HRS|exact Hf].
Qed.

End ShowcaseFacts.

(** The rendered repositories are the input repositories, each rendered
    once, in an order with every featured repository before every
    non-featured one and, within the featured and within the non-featured
    ones, stars (missing stars counting as 0) non-increasing; repositories
    with the same featured flag and the same stars keep their input order. *)
Theorem renderRepositoryShowcase_repository_order
  (repositories : list Showcase.Repository) (publications : list Showcase.Publication) :
  exists sorted,
    Permutation sorted repositories /\
    fst (Showcase.renderRepositoryShowcase repositories publications) =
      map Showcase.render_repo sorted /\
    StronglySorted (fun a b =>
      (Showcase.r_featured a = true \/ Showcase.r_featured b = false) /\
      (Showcase.r_featured a = Showcase.r_featured b ->
       (Showcase.stars_or_0 b <= Showcase.stars_or_0 a)%Q)) sorted /\
    (forall x, let same_rank y :=
        Bool.eqb (Showcase.r_featured x) (Showcase.r_featured y) &&
        Qeq_bool (Showcase.stars_or_0 x) (Showcase.stars_or_0 y) in
      filter same_rank sorted = filter same_rank repositories).
Proof.
  exists (Showcase.js_sort Showcase.repo_cmp repositories).
  split; [apply js_sort_perm|]. split; [reflexivity|]. split.
  - eapply StronglySorted_impl; [apply repo_le_cmp|].
    apply js_sort_sorted; [exact repo_cmp_antisym|exact repo_cmp_trans].
  - intros x same_rank.
    assert (Hs : forall l, filter same_rank l = filter (tie _ Showcase.repo_cmp x) l).
    { intros l. apply filter_ext. intros y. symmetry. apply repo_tie. }
    rewrite !Hs. apply js_sort_stable; [exact repo_cmp_antisym|exact repo_cmp_trans].
Qed.

(** The rendered publications are the input publications, each rendered
    once, with years non-increasing (newest first); publications of the
    same year keep their input order. *)
Theorem renderRepositoryShowcase_publication_order
  (repositories : list Showcase.Repository) (publications : list Showcase.Publication) :
  exists sorted,
    Permutation sorted publications /\
    snd (Showcase.renderRepositoryShowcase repositories publications) =
      map Showcase.render_pub sorted /\
    StronglySorted (fun a b => (Showcase.p_year b <= Showcase.p_year a)%Q) sorted /\
    (forall x, let same_year y := Qeq_bool (Showcase.p_year x) (Showcase.p_year y) in
      filter same_year sorted = filter same_year publications).
Proof.
  exists (Showcase.js_sort Showcase.pub_cmp publications).
  split; [apply js_sort_perm|]. split; [reflexivity|]. split.
  - eapply StronglySorted_impl; [|apply js_sort_sorted; [exact pub_cmp_antisym|exact pub_cmp_trans]].
    unfold le_cmp, Showcase.pub_cmp. intros a b H. lra.
  - intros x same_year.
    assert (Hs : forall l, filter same_year l = filter (tie _ Showcase.pub_cmp x) l).
    { intros l. apply filter_ext. intros y. symmetry. apply pub_tie. }
    rewrite !Hs. apply js_sort_stable; [exact pub_cmp_antisym|exact pub_cmp_trans].
Qed.

Section UriFacts.
Local Open Scope Z_scope.

Ltac zbool :=
  repeat match goal with
  | |- context [?a <=? ?b] => destruct (Z.leb_spec a b); try (exfalso; lia)
  | |- context [?a <? ?b] => destruct (Z.ltb_spec a b); try (exfalso; lia)
  | |- context [?a =? ?b] => destruct (Z.eqb_spec a b); try (exfalso; lia)
  end; cbn [andb orb negb].

Lemma utf8_decode_encode (cp : Z) (rest : list Z) :
  0 <= cp <= 0x10FFFF -> ~ (0xD800 <= cp <= 0xDFFF) ->
  Uri.utf8_decode_from Uri.dinit (Uri.utf8_encode cp ++ rest) =
  cp :: Uri.utf8_decode_from Uri.dinit rest.
Proof.
  intros Hr Hs. unfold Uri.utf8_encode.
  destruct (Z.leb_spec cp 0x7F); [|destruct (Z.leb_spec cp 0x7FF); [|destruct (Z.leb_spec cp 0xFFFF)]];
  cbn [app Uri.utf8_decode_from]; unfold Uri.dstep, Uri.lead_step, Uri.in_range, Uri.dinit;
  cbn [Uri.needed Uri.seen Uri.code_point Uri.lower Uri.upper];
  Z.to_euclidean_division_equations;
  repeat (zbool; cbn [Uri.needed Uri.seen Uri.code_point Uri.lower Uri.upper app]);
  f_equal; lia.
Qed.

Definition scalar (cp : Z) : Prop := 0 <= cp <= 0x10FFFF /\ ~ (0xD800 <= cp <= 0xDFFF).

Lemma utf8_decode_all (cps : list Z) :
  Forall scalar cps ->
  Uri.utf8_decode_from Uri.dinit (flat_map Uri.utf8_encode cps) = cps.
Proof.
  induction 1 as [|cp cps [H1 H2] _ IH]; [reflexivity|].
  cbn [flat_map]. rewrite utf8_decode_encode by assumption. now rewrite IH.
Qed.

Lemma unescaped_ascii (c : Z) :
  Uri.uri_unescaped c = true ->
  (65 <= c <= 90 \/ 97 <= c <= 122 \/ 48 <= c <= 57 \/ In c [45; 95; 46; 33; 126; 42; 39; 40; 41]).
Proof.
  unfold Uri.uri_unescaped, Uri.in_range.
  assert (E : Uri.js "-_.!~*'()" = [45; 95; 46; 33; 126; 42; 39; 40; 41]) by reflexivity.
  rewrite E. intros H. apply orb_true_iff in H as [H|H].
  - apply orb_true_iff in H as [H|H]; [apply orb_true_iff in H as [H|H]|];
      apply andb_true_iff in H as [H1 H2]; apply Z.leb_le in H1, H2; lia.
  - apply existsb_exists in H as [x [Hx Hxe]]. apply Z.eqb_eq in Hxe. subst x.
    right; right; right. exact Hx.
Qed.

Lemma unescaped_range (c : Z) : Uri.uri_unescaped c = true -> 33 <= c <= 126.
Proof.
  intros H. apply unescaped_ascii in H.
  destruct H as [H|[H|[H|H]]]; try lia. cbn in H. intuition lia.
Qed.

Lemma wf_scalars (s : list Z) :
  Uri.well_formed_utf16 s = true ->
  Forall scalar (Uri.to_scalars s) /\ flat_map Uri.utf16_encode (Uri.to_scalars s) = s.
Proof.
  revert s. fix IH 1. intros [|c rest] Hw; [split; [constructor|reflexivity]|].
  cbn [Uri.well_formed_utf16] in Hw. apply andb_true_iff in Hw as [Hc Hw].
  unfold Uri.in_range in Hc. apply andb_true_iff in Hc as [Hc1 Hc2].
  apply Z.leb_le in Hc1. apply Z.leb_le in Hc2.
  cbn [Uri.to_scalars].
  destruct (Uri.is_low c) eqn:Hl; [discriminate|].
  destruct (Uri.is_high c) eqn:Hh.
  - destruct rest as [|d rest']; [discriminate|].
    apply andb_true_iff in Hw as [Hd Hw].
    rewrite Hd. destruct (IH rest' Hw) as [IH1 IH2].
    unfold Uri.is_high, Uri.is_low, Uri.in_range in *.
    apply andb_true_iff in Hh as [Hh1 Hh2]; apply andb_true_iff in Hd as [Hd1 Hd2].
    apply Z.leb_le in Hh1, Hh2, Hd1, Hd2.
    split.
    + constructor; [|exact IH1]. unfold scalar, Uri.pair_code_point. lia.
    + cbn [flat_map]. rewrite IH2. unfold Uri.utf16_encode, Uri.pair_code_point.
      destruct (Z.leb_spec ((c - 55296) * 1024 + (d - 56320) + 65536) 65535); [lia|].
      cbn [app]. f_equal; [|f_equal]; Z.to_euclidean_division_equations; lia.
  - destruct (IH rest Hw) as [IH1 IH2].
    unfold Uri.is_high, Uri.is_low, Uri.in_range in *.
    apply andb_false_iff in Hh; apply andb_false_iff in Hl.
    split.
    + constructor; [|exact IH1]. unfold scalar.
      destruct Hh as [Hh|Hh]; apply Z.leb_gt in Hh;
        destruct Hl as [Hl|Hl]; apply Z.leb_gt in Hl; lia.
    + cbn [flat_map]. rewrite IH2. unfold Uri.utf16_encode.
      destruct (Z.leb_spec c 65535); [reflexivity|lia].
Qed.

(** The text [encodeURIComponent] produces: kept characters and
    percent-encoded bytes. *)
Inductive tok := Lit (c : Z) | Pct (b : Z).

Definition render (t : tok) : list Z :=
  match t with Lit c => [c] | Pct b => Uri.pct_byte b end.

Definition byte_of (t : tok) : Z := match t with Lit c => c | Pct b => b end.

Definition tok_ok (t : tok) : Prop :=
  match t with Lit c => Uri.uri_unescaped c = true | Pct b => 0 <= b < 256 end.

Lemma utf8_encode_bytes (cp : Z) :
  0 <= cp <= 0x10FFFF -> Forall (fun b => 0 <= b < 256) (Uri.utf8_encode cp).
Proof.
  intros H. unfold Uri.utf8_encode.
  destruct (Z.leb_spec cp 0x7F); [|destruct (Z.leb_spec cp 0x7FF); [|destruct (Z.leb_spec cp 0xFFFF)]];
    repeat constructor; Z.to_euclidean_division_equations; lia.
Qed.

Lemma pct_tokens (bytes : list Z) :
  Forall (fun b => 0 <= b < 256) bytes ->
  flat_map Uri.pct_byte bytes = flat_map render (map Pct bytes) /\
  map byte_of (map Pct bytes) = bytes /\ Forall tok_ok (map Pct bytes).
Proof.
  induction 1 as [|b bytes Hb _ [IH1 [IH2 IH3]]]; [repeat constructor|].
  cbn [flat_map map]. rewrite IH1, IH2. repeat split. constructor; assumption.
Qed.

Lemma encode_tokens (s : list Z) :
  Uri.well_formed_utf16 s = true ->
  exists ts, Uri.encodeURIComponent s = Some (flat_map render ts) /\
             map byte_of ts = flat_map Uri.utf8_encode (Uri.to_scalars s) /\
             Forall tok_ok ts.
Proof.
  revert s. fix IH 1. intros [|c rest] Hw; [exists []; repeat constructor|].
  cbn [Uri.well_formed_utf16] in Hw. apply andb_true_iff in Hw as [Hc Hw].
  unfold Uri.in_range in Hc. apply andb_true_iff in Hc as [Hc1 Hc2].
  apply Z.leb_le in Hc1. apply Z.leb_le in Hc2.
  cbn [Uri.encodeURIComponent Uri.to_scalars].
  destruct (Uri.is_low c) eqn:Hl; [discriminate|].
  destruct (Uri.uri_unescaped c) eqn:Hu.
  - pose proof (unescaped_range c Hu) as Hr.
    assert (Hh : Uri.is_high c = false)
      by (unfold Uri.is_high, Uri.in_range; apply andb_false_iff; left; apply Z.leb_gt; lia).
    rewrite Hh in Hw |- *.
    destruct (IH rest Hw) as (ts & E & B & O).
    exists (Lit c :: ts). rewrite E. split; [reflexivity|]. split; [|constructor; assumption].
    cbn [map flat_map]. rewrite B. unfold Uri.utf8_encode.
    destruct (Z.leb_spec c 0x7F); [reflexivity|lia].
  - destruct (Uri.is_high c) eqn:Hh.
    + destruct rest as [|d rest']; [discriminate|].
      apply andb_true_iff in Hw as [Hd Hw]. rewrite Hd.
      destruct (IH rest' Hw) as (ts & E & B & O).
      assert (Hp : 0 <= Uri.pair_code_point c d <= 0x10FFFF).
      { unfold Uri.is_high, Uri.is_low, Uri.in_range, Uri.pair_code_point in *.
        apply andb_true_iff in Hh as [Hh1 Hh2]; apply andb_true_iff in Hd as [Hd1 Hd2].
        apply Z.leb_le in Hh1, Hh2, Hd1, Hd2. lia. }
      destruct (pct_tokens _ (utf8_encode_bytes _ Hp)) as (P1 & P2 & P3).
      exists (map Pct (Uri.utf8_encode (Uri.pair_code_point c d)) ++ ts).
      rewrite E. cbn [option_map]. rewrite P1, flat_map_app. split; [reflexivity|].
      rewrite map_app, P2, B. split; [reflexivity|]. apply Forall_app; split; assumption.
    + destruct (IH rest Hw) as (ts & E & B & O).
      assert (Hp : 0 <= c <= 0x10FFFF) by lia.
      destruct (pct_tokens _ (utf8_encode_bytes _ Hp)) as (P1 & P2 & P3).
      exists (map Pct (Uri.utf8_encode c) ++ ts).
      rewrite E. cbn [option_map]. rewrite P1, flat_map_app. split; [reflexivity|].
      rewrite map_app, P2, B. split; [reflexivity|]. apply Forall_app; split; assumption.
Qed.


Definition printable (c : Z) : bool := (33 <=? c) && (c <=? 126).

(** The characters of the encoded text: printable, and none of
    [#], [&], [+], [=] or [?]. *)
Definition text_char (c : Z) : bool :=
  printable c && negb (c =? 35) && negb (c =? 38) && negb (c =? 43) &&
  negb (c =? 61) && negb (c =? 63).

Lemma hex_digit_spec (d : Z) :
  0 <= d < 16 ->
  ((48 <= Uri.hex_digit d <= 57) \/ (65 <= Uri.hex_digit d <= 70)) /\
  Uri.is_hex (Uri.hex_digit d) = true /\ Uri.hex_val (Uri.hex_digit d) = d.
Proof.
  intros H. unfold Uri.hex_digit, Uri.is_hex, Uri.hex_val, Uri.in_range.
  destruct (Z.ltb_spec d 10); zbool; repeat split; try lia; reflexivity.
Qed.

Lemma pct_byte_digits (b : Z) :
  0 <= b < 256 ->
  Uri.pct_byte b = [37; Uri.hex_digit (b / 16); Uri.hex_digit (b mod 16)] /\
  0 <= b / 16 < 16 /\ 0 <= b mod 16 < 16 /\ b / 16 * 16 + b mod 16 = b.
Proof. intros H. split; [reflexivity|]. Z.to_euclidean_division_equations; lia. Qed.

Lemma render_text (t : tok) : tok_ok t -> forallb text_char (render t) = true.
Proof.
  destruct t as [c|b]; cbn [tok_ok render].
  - intros Hu. apply unescaped_ascii in Hu. cbn [forallb]. rewrite andb_true_r.
    unfold text_char, printable.
    destruct Hu as [H|[H|[H|H]]]; [zbool; reflexivity ..|].
    cbn in H. intuition (subst; reflexivity).
  - intros Hb. destruct (pct_byte_digits b Hb) as (-> & H1 & H2 & _).
    destruct (hex_digit_spec _ H1) as [R1 _]. destruct (hex_digit_spec _ H2) as [R2 _].
    cbn [forallb]. unfold text_char, printable.
    destruct R1, R2; zbool; reflexivity.
Qed.

Lemma text_tokens (ts : list tok) :
  Forall tok_ok ts -> forallb text_char (flat_map render ts) = true.
Proof.
  induction 1 as [|t ts Ht _ IH]; [reflexivity|].
  cbn [flat_map]. rewrite forallb_app, IH, render_text by exact Ht. reflexivity.
Qed.

(** [new URL] percent-encodes the [']s that [encodeURIComponent] keeps. *)
Definition qtok (t : tok) : tok :=
  match t with Lit c => if c =? 39 then Pct 39 else Lit c | Pct b => Pct b end.

Lemma qtok_ok (t : tok) : tok_ok t -> tok_ok (qtok t).
Proof.
  destruct t as [c|b]; cbn; [|tauto]. destruct (Z.eqb_spec c 39); cbn; [lia|tauto].
Qed.

Lemma qtok_byte (t : tok) : byte_of (qtok t) = byte_of t.
Proof. destruct t as [c|b]; cbn; [destruct (Z.eqb_spec c 39); cbn; congruence|reflexivity]. Qed.

Lemma query_encode_app (a b : list Z) :
  Uri.query_encode (a ++ b) = Uri.query_encode a ++ Uri.query_encode b.
Proof. unfold Uri.query_encode. apply flat_map_app. Qed.

Lemma query_encode_char (c : Z) :
  0 <= c <= 0x7F ->
  Uri.query_encode [c] = if Uri.special_query_set c then Uri.pct_byte c else [c].
Proof.
  intros H. unfold Uri.query_encode. cbn [flat_map]. unfold Uri.utf8_encode.
  destruct (Z.leb_spec c 0x7F); [|lia]. cbn [flat_map]. now rewrite !app_nil_r.
Qed.

Lemma query_encode_render (t : tok) :
  tok_ok t -> Uri.query_encode (render t) = render (qtok t).
Proof.
  destruct t as [c|b]; cbn [tok_ok render qtok].
  - intros Hu. pose proof (unescaped_range c Hu) as Hr. rewrite query_encode_char by lia.
    apply unescaped_ascii in Hu. unfold Uri.special_query_set. cbn [existsb].
    destruct (Z.eqb_spec c 39) as [->|Hn]; [reflexivity|].
    destruct Hu as [H|[H|[H|H]]]; [zbool; reflexivity ..|].
    cbn in H. intuition (subst; first [reflexivity | congruence]).
  - intros Hb. destruct (pct_byte_digits b Hb) as (-> & H1 & H2 & _).
    destruct (hex_digit_spec _ H1) as [R1 _]. destruct (hex_digit_spec _ H2) as [R2 _].
    change [37; Uri.hex_digit (b / 16); Uri.hex_digit (b mod 16)] with
      ([37] ++ [Uri.hex_digit (b / 16)] ++ [Uri.hex_digit (b mod 16)]).
    rewrite !query_encode_app, !query_encode_char by lia.
    unfold Uri.special_query_set. cbn [existsb].
    destruct R1, R2; zbool; reflexivity.
Qed.

Lemma query_encode_tokens (ts : list tok) :
  Forall tok_ok ts ->
  Uri.query_encode (flat_map render ts) = flat_map render (map qtok ts).
Proof.
  induction 1 as [|t ts Ht _ IH]; [reflexivity|].
  cbn [flat_map map]. rewrite query_encode_app, IH, query_encode_render by exact Ht.
  reflexivity.
Qed.

Lemma percent_decode_tokens (ts : list tok) :
  Forall tok_ok ts -> Uri.percent_decode (flat_map render ts) = map byte_of ts.
Proof.
  induction 1 as [|t ts Ht _ IH]; [reflexivity|].
  destruct t as [c|b]; cbn [tok_ok render flat_map map byte_of app] in *.
  - pose proof (unescaped_range c Ht).
    cbn [Uri.percent_decode]. destruct (Z.eqb_spec c 37); [subst; apply unescaped_ascii in Ht; cbn in Ht; intuition lia|]. now rewrite IH.
  - destruct (pct_byte_digits b Ht) as (-> & H1 & H2 & H3).
    destruct (hex_digit_spec _ H1) as (_ & X1 & V1). destruct (hex_digit_spec _ H2) as (_ & X2 & V2).
    cbn [app Uri.percent_decode Z.eqb Pos.eqb]. rewrite X1, X2, V1, V2, IH. cbn [andb].
    now rewrite H3.
Qed.

Lemma utf8_encode_ascii (l : list Z) :
  forallb (fun c => (0 <=? c) && (c <=? 0x7F)) l = true -> flat_map Uri.utf8_encode l = l.
Proof.
  induction l as [|c l IH]; intros H; [reflexivity|].
  cbn [forallb] in H. apply andb_true_iff in H as [Hc H]. apply andb_true_iff in Hc as [H1 H2].
  apply Z.leb_le in H1, H2. cbn [flat_map]. rewrite IH by exact H.
  unfold Uri.utf8_encode. destruct (Z.leb_spec c 0x7F); [reflexivity|lia].
Qed.

Lemma forallb_impl {T : Type} (f g : T -> bool) (l : list T) :
  (forall x, f x = true -> g x = true) -> forallb f l = true -> forallb g l = true.
Proof.
  intros Hfg Hf. apply forallb_forall. intros x Hx. apply Hfg.
  exact (proj1 (forallb_forall f l) Hf x Hx).
Qed.

Lemma text_char_printable (c : Z) : text_char c = true -> printable c = true.
Proof. unfold text_char. intros H. do 5 (apply andb_true_iff in H as [H _]). exact H. Qed.

Lemma to_scalars_printable (l : list Z) :
  forallb printable l = true -> Uri.to_scalars l = l.
Proof.
  induction l as [|c l IH]; intros H; [reflexivity|].
  cbn [forallb] in H. apply andb_true_iff in H as [Hc H].
  unfold printable in Hc. apply andb_true_iff in Hc as [H1 H2]. apply Z.leb_le in H1, H2.
  cbn [Uri.to_scalars]. unfold Uri.is_high, Uri.is_low, Uri.in_range.
  zbool. now rewrite IH.
Qed.

Lemma skip_while_none (f : Z -> bool) (l : list Z) :
  forallb (fun c => negb (f c)) l = true -> Uri.skip_while f l = l.
Proof.
  destruct l as [|c l]; intros H; [reflexivity|].
  cbn [forallb] in H. apply andb_true_iff in H as [Hc _].
  cbn [Uri.skip_while]. destruct (f c); [discriminate|reflexivity].
Qed.

Lemma forallb_rev {T : Type} (f : T -> bool) (l : list T) : forallb f (rev l) = forallb f l.
Proof.
  induction l as [|x l IH]; [reflexivity|].
  cbn [rev forallb]. rewrite forallb_app, IH. cbn [forallb]. now rewrite andb_true_r, andb_comm.
Qed.

Lemma url_preprocess_printable (l : list Z) :
  forallb printable l = true ->
  Uri.remove_tab_nl (Uri.strip_c0 (Uri.to_scalars l)) = l.
Proof.
  intros H. rewrite to_scalars_printable by exact H.
  assert (Hc : forallb (fun c => negb (Uri.c0_or_space c)) l = true).
  { revert H. apply forallb_impl. intros c Hc. unfold printable, Uri.c0_or_space, Uri.in_range in *.
    apply andb_true_iff in Hc as [H1 H2]. apply Z.leb_le in H1. zbool. reflexivity. }
  unfold Uri.strip_c0. rewrite (skip_while_none _ l Hc).
  rewrite (skip_while_none _ (rev l)) by (now rewrite forallb_rev). rewrite rev_involutive.
  unfold Uri.remove_tab_nl. induction l as [|c l IH]; [reflexivity|].
  cbn [forallb] in H. apply andb_true_iff in H as [Hp H].
  cbn [filter]. unfold printable in Hp. apply andb_true_iff in Hp as [H1 _]. apply Z.leb_le in H1.
  zbool. rewrite IH; [reflexivity|exact H|].
  cbn [forallb] in Hc. now apply andb_true_iff in Hc as [_ Hc].
Qed.

Lemma path_state_query (a r : list Z) :
  forallb (fun c => negb (c =? 63) && negb (c =? 35)) a = true ->
  forallb (fun c => negb (c =? 35)) r = true ->
  Uri.path_state (a ++ 63 :: r) = Some (Uri.query_encode r).
Proof.
  intros Ha Hr. induction a as [|c a IH].
  - cbn [app Uri.path_state Z.eqb Pos.eqb]. f_equal. f_equal.
    clear -Hr. induction r as [|c r IH]; [reflexivity|].
    cbn [forallb] in Hr. apply andb_true_iff in Hr as [Hc Hr].
    cbn [Uri.query_buffer]. destruct (c =? 35); [discriminate|]. now rewrite IH.
  - cbn [forallb] in Ha. apply andb_true_iff in Ha as [Hc Ha].
    apply andb_true_iff in Hc as [H1 H2].
    cbn [app Uri.path_state]. destruct (c =? 63); [discriminate|].
    destruct (c =? 35); [discriminate|]. now apply IH.
Qed.

Lemma split_on_none (sep : Z) (l : list Z) :
  forallb (fun c => negb (c =? sep)) l = true -> Uri.split_on sep l = [l].
Proof.
  induction l as [|c l IH]; intros H; [reflexivity|].
  cbn [forallb] in H. apply andb_true_iff in H as [Hc H].
  cbn [Uri.split_on]. destruct (c =? sep); [discriminate|]. now rewrite IH.
Qed.

Lemma split_on_app (sep : Z) (a b : list Z) :
  forallb (fun c => negb (c =? sep)) a = true ->
  Uri.split_on sep (a ++ sep :: b) = a :: Uri.split_on sep b.
Proof.
  induction a as [|c a IH]; intros H.
  - cbn [app Uri.split_on]. now rewrite Z.eqb_refl.
  - cbn [forallb] in H. apply andb_true_iff in H as [Hc H].
    cbn [app Uri.split_on]. destruct (c =? sep); [discriminate|]. now rewrite IH.
Qed.

Lemma split_first_app (sep : Z) (a b : list Z) :
  forallb (fun c => negb (c =? sep)) a = true ->
  Uri.split_first sep (a ++ sep :: b) = (a, b).
Proof.
  induction a as [|c a IH]; intros H.
  - cbn [app Uri.split_first]. now rewrite Z.eqb_refl.
  - cbn [forallb] in H. apply andb_true_iff in H as [Hc H].
    cbn [app Uri.split_first]. destruct (c =? sep); [discriminate|]. now rewrite IH.
Qed.

Lemma decode_tokens (ts : list tok) :
  Forall tok_ok ts ->
  Uri.decode_component (flat_map render (map qtok ts)) =
  flat_map Uri.utf16_encode (Uri.utf8_decode_from Uri.dinit (map byte_of ts)).
Proof.
  intros H.
  assert (Hq : Forall tok_ok (map qtok ts)) by (apply Forall_map; eapply Forall_impl; [exact qtok_ok|exact H]).
  unfold Uri.decode_component.
  rewrite map_ext_in with (g := fun b => b).
  - rewrite map_id, percent_decode_tokens by exact Hq.
    rewrite map_map. now rewrite (map_ext _ _ qtok_byte).
  - intros c Hc. pose proof (proj1 (forallb_forall _ _) (text_tokens _ Hq) c Hc) as Ht.
    unfold text_char in Ht. destruct (Z.eqb_spec c 43); [subst; discriminate|reflexivity].
Qed.


Lemma url_query_contact (P : list Z) :
  forallb printable P = true -> forallb (fun c => negb (c =? 35)) P = true ->
  Uri.url_query (Uri.js "/contact" ++ 63 :: P) = Some (Some (Uri.query_encode P)).
Proof.
  intros Hp Hh.
  change (Uri.js "/contact" ++ 63 :: P) with (47 :: 99 :: 111 :: 110 :: 116 :: 97 :: 99 :: 116 :: 63 :: P).
  unfold Uri.url_query.
  rewrite url_preprocess_printable
    by (change (47 :: 99 :: 111 :: 110 :: 116 :: 97 :: 99 :: 116 :: 63 :: P) with (Uri.js "/contact?" ++ P);
        rewrite forallb_app, Hp; reflexivity).
  cbv beta iota zeta. cbn [Z.eqb Pos.eqb orb].
  change (47 :: 99 :: 111 :: 110 :: 116 :: 97 :: 99 :: 116 :: 63 :: P) with (Uri.js "/contact" ++ 63 :: P).
  rewrite path_state_query by (reflexivity || exact Hh). reflexivity.
Qed.

Lemma urlencoded_contact (S1 S2 : list Z) :
  forallb (fun c => negb (c =? 38)) S1 = true -> forallb (fun c => negb (c =? 61)) S1 = true ->
  forallb (fun c => negb (c =? 38)) S2 = true -> forallb (fun c => negb (c =? 61)) S2 = true ->
  Uri.urlencoded_parse (Uri.js "product=" ++ S1 ++ Uri.js "&subject=" ++ S2) =
  [(Uri.js "product", Uri.decode_component S1); (Uri.js "subject", Uri.decode_component S2)].
Proof.
  intros A1 E1 A2 E2. unfold Uri.urlencoded_parse.
  change (Uri.js "&subject=" ++ S2) with (38 :: (Uri.js "subject=" ++ S2)).
  rewrite app_assoc, split_on_app by (rewrite forallb_app, A1; reflexivity).
  rewrite split_on_none by (rewrite forallb_app, A2; reflexivity).
  change (Uri.js "product=" ++ S1) with (112 :: (Uri.js "roduct=" ++ S1)).
  change (Uri.js "subject=" ++ S2) with (115 :: (Uri.js "ubject=" ++ S2)).
  cbn [filter negb map].
  change (112 :: (Uri.js "roduct=" ++ S1)) with (Uri.js "product" ++ 61 :: S1).
  change (115 :: (Uri.js "ubject=" ++ S2)) with (Uri.js "subject" ++ 61 :: S2).
  rewrite !split_first_app by (exact E1 || exact E2 || reflexivity).
  reflexivity.
Qed.

Lemma text_no (c0 : Z) (l : list Z) :
  In c0 [35; 38; 61] -> forallb text_char l = true -> forallb (fun c => negb (c =? c0)) l = true.
Proof.
  intros Hc. apply forallb_impl. intros c Ht. unfold text_char in Ht.
  repeat (apply andb_true_iff in Ht as [Ht ?]).
  cbn in Hc. destruct Hc as [<-|[<-|[<-|[]]]]; assumption.
Qed.

Lemma text_ascii (l : list Z) :
  forallb text_char l = true -> forallb (fun c => (0 <=? c) && (c <=? 0x7F)) l = true.
Proof.
  apply forallb_impl. intros c Ht. apply text_char_printable in Ht.
  unfold printable in Ht. apply andb_true_iff in Ht as [H1 H2]. apply Z.leb_le in H1, H2.
  zbool. reflexivity.
Qed.

Lemma parse_built (ts1 ts2 : list tok) :
  Forall tok_ok ts1 -> Forall tok_ok ts2 ->
  Uri.parseContactUrlParams
    (Uri.js "/contact?product=" ++ flat_map render ts1 ++ Uri.js "&subject=" ++ flat_map render ts2) =
  Some {| Uri.product := Uri.or_undefined (Some (Uri.decode_component (flat_map render (map qtok ts1))));
          Uri.subject := Uri.or_undefined (Some (Uri.decode_component (flat_map render (map qtok ts2)))) |}.
Proof.
  intros H1 H2.
  assert (Q1 : Forall tok_ok (map qtok ts1))
    by (apply Forall_map; eapply Forall_impl; [exact qtok_ok|exact H1]).
  assert (Q2 : Forall tok_ok (map qtok ts2))
    by (apply Forall_map; eapply Forall_impl; [exact qtok_ok|exact H2]).
  pose proof (text_tokens _ H1) as T1. pose proof (text_tokens _ H2) as T2.
  pose proof (text_tokens _ Q1) as U1. pose proof (text_tokens _ Q2) as U2.
  pose proof (query_encode_tokens _ H1) as E1. pose proof (query_encode_tokens _ H2) as E2.
  set (R1 := flat_map render ts1) in *. set (R2 := flat_map render ts2) in *.
  set (S1 := flat_map render (map qtok ts1)) in *. set (S2 := flat_map render (map qtok ts2)) in *.
  unfold Uri.parseContactUrlParams.
  change (Uri.js "/contact?product=" ++ R1 ++ Uri.js "&subject=" ++ R2) with
    (Uri.js "/contact" ++ 63 :: (Uri.js "product=" ++ R1 ++ Uri.js "&subject=" ++ R2)).
  rewrite url_query_contact.
  2: { rewrite !forallb_app, (forallb_impl _ _ _ text_char_printable T1),
         (forallb_impl _ _ _ text_char_printable T2). reflexivity. }
  2: { rewrite !forallb_app, (text_no 35 R1), (text_no 35 R2) by (cbn; tauto || assumption).
       reflexivity. }
  rewrite !query_encode_app, E1, E2.
  change (Uri.query_encode (Uri.js "product=")) with (Uri.js "product=").
  change (Uri.query_encode (Uri.js "&subject=")) with (Uri.js "&subject=").
  rewrite utf8_encode_ascii.
  2: { rewrite !forallb_app, (text_ascii S1 U1), (text_ascii S2 U2). reflexivity. }
  rewrite urlencoded_contact by (apply text_no; [cbn; tauto|assumption]).
  reflexivity.
Qed.

Lemma wf_ascii_prefix (a t : list Z) :
  forallb (fun c => (0 <=? c) && (c <? 0xD800)) a = true ->
  Uri.well_formed_utf16 (a ++ t) = Uri.well_formed_utf16 t.
Proof.
  induction a as [|c a IH]; intros H; [reflexivity|].
  cbn [forallb] in H. apply andb_true_iff in H as [Hc H].
  apply andb_true_iff in Hc as [H1 H2]. apply Z.leb_le in H1. apply Z.ltb_lt in H2.
  cbn [app Uri.well_formed_utf16]. unfold Uri.is_low, Uri.is_high, Uri.in_range.
  zbool. now apply IH.
Qed.

Lemma decode_encoded (s : list Z) (ts : list tok) :
  Uri.well_formed_utf16 s = true ->
  map byte_of ts = flat_map Uri.utf8_encode (Uri.to_scalars s) -> Forall tok_ok ts ->
  Uri.decode_component (flat_map render (map qtok ts)) = s.
Proof.
  intros Hw B O. rewrite decode_tokens by exact O. rewrite B.
  destruct (wf_scalars s Hw) as [Hs Hu]. now rewrite utf8_decode_all.
Qed.

Lemma encode_none (s : list Z) :
  Forall (fun c => 0 <= c <= 0xFFFF) s -> Uri.well_formed_utf16 s = false ->
  Uri.encodeURIComponent s = None.
Proof.
  revert s. fix IH 1. intros [|c rest] Hr Hw; [discriminate|].
  apply Forall_cons_iff in Hr as [Hc Hr].
  cbn [Uri.well_formed_utf16] in Hw.
  assert (Hin : Uri.in_range 0 0xFFFF c = true) by (unfold Uri.in_range; zbool; reflexivity).
  rewrite Hin in Hw. cbn [andb] in Hw.
  cbn [Uri.encodeURIComponent].
  destruct (Uri.uri_unescaped c) eqn:Hu.
  - pose proof (unescaped_range c Hu) as Hc'.
    assert (Hl : Uri.is_low c = false) by (unfold Uri.is_low, Uri.in_range; zbool; reflexivity).
    assert (Hh : Uri.is_high c = false) by (unfold Uri.is_high, Uri.in_range; zbool; reflexivity).
    rewrite Hl, Hh in Hw. now rewrite (IH rest Hr Hw).
  - destruct (Uri.is_low c); [reflexivity|].
    destruct (Uri.is_high c).
    + destruct rest as [|d rest']; [reflexivity|].
      destruct (Uri.is_low d); [|reflexivity].
      cbn [andb] in Hw. apply Forall_cons_iff in Hr as [_ Hr'].
      now rewrite (IH rest' Hr' Hw).
    + now rewrite (IH rest Hr Hw).
Qed.

End UriFacts.

(** [buildContactUrl] followed by [parseContactUrlParams] gives back the
    product id (or undefined when it is empty) and the subject
    ["Training Inquiry: " + title], for every product id and title without
    an unpaired surrogate; and [prePopulateContactForm] then fills the
    subject with ["Training Inquiry: " + title] and the hidden product
    field with the product id. *)
Theorem contact_url_round_trip (productId productTitle : list Z)
  (Hid : Uri.well_formed_utf16 productId = true)
  (Htitle : Uri.well_formed_utf16 productTitle = true) :
  exists url,
    Uri.buildContactUrl productId productTitle = Some url /\
    Uri.parseContactUrlParams url =
      Some {| Uri.product := match productId with [] => None | _ :: _ => Some productId end;
              Uri.subject := Some (Uri.js "Training Inquiry: " ++ productTitle) |} /\
    option_map Uri.prePopulateContactForm (Uri.parseContactUrlParams url) =
      Some {| Uri.prefill_subject := Uri.js "Training Inquiry: " ++ productTitle;
              Uri.productHidden := productId |}.
Proof.
  assert (Hs : Uri.well_formed_utf16 (Uri.js "Training Inquiry: " ++ productTitle) = true)
    by (rewrite wf_ascii_prefix by reflexivity; exact Htitle).
  destruct (encode_tokens _ Hid) as (ts1 & E1 & B1 & O1).
  destruct (encode_tokens _ Hs) as (ts2 & E2 & B2 & O2).
  exists (Uri.js "/contact?product=" ++ flat_map render ts1 ++ Uri.js "&subject=" ++ flat_map render ts2).
  unfold Uri.buildContactUrl. rewrite E1, E2.
  assert (Hp : Uri.parseContactUrlParams
      (Uri.js "/contact?product=" ++ flat_map render ts1 ++ Uri.js "&subject=" ++ flat_map render ts2) =
      Some {| Uri.product := match productId with [] => None | _ :: _ => Some productId end;
              Uri.subject := Some (Uri.js "Training Inquiry: " ++ productTitle) |}).
  { rewrite parse_built by assumption.
    rewrite (decode_encoded _ _ Hid B1 O1), (decode_encoded _ _ Hs B2 O2).
    destruct productId; reflexivity. }
  split; [reflexivity|]. split; [exact Hp|]. rewrite Hp.
  destruct productId; reflexivity.
Qed.

(** [buildContactUrl] throws (a URIError of [encodeURIComponent])
    exactly when the product id or the title holds an unpaired
    surrogate. *)
Theorem buildContactUrl_throws (productId productTitle : list Z)
  (Hrange : Forall (fun c => (0 <= c <= 0xFFFF)%Z) (productId ++ productTitle)) :
  Uri.buildContactUrl productId productTitle = None <->
  Uri.well_formed_utf16 productId = false \/ Uri.well_formed_utf16 productTitle = false.
Proof.
  apply Forall_app in Hrange as [Hr1 Hr2].
  assert (Hs : Uri.well_formed_utf16 (Uri.js "Training Inquiry: " ++ productTitle) =
               Uri.well_formed_utf16 productTitle) by (apply wf_ascii_prefix; reflexivity).
  unfold Uri.buildContactUrl. split.
  - intros Hn. destruct (Uri.well_formed_utf16 productId) eqn:W1; [|now left].
    destruct (Uri.well_formed_utf16 productTitle) eqn:W2; [|now right].
    destruct (encode_tokens _ W1) as (ts1 & E1 & _). destruct (encode_tokens _ Hs) as (ts2 & E2 & _).
    rewrite E1, E2 in Hn. discriminate Hn.
  - intros [W|W].
    + now rewrite (encode_none _ Hr1 W).
    + rewrite <- Hs in W.
      rewrite (encode_none (Uri.js "Training Inquiry: " ++ productTitle)); [now destruct (Uri.encodeURIComponent productId)| |exact W].
      apply Forall_app. split; [|exact Hr2].
      apply Forall_forall. intros c Hc. vm_compute in Hc.
      repeat (destruct Hc as [<-|Hc]; [lia|]). destruct Hc.
Qed.

Lemma contact_url_round_trip_witness :
  Uri.well_formed_utf16 (Uri.js "aws-fundamentals") = true /\
  Uri.well_formed_utf16 (Uri.js "AWS & Co. 100% 'Pro' #1" ++ [233; 0xD83D; 0xDE00])%Z = true /\
  exists url,
    Uri.buildContactUrl (Uri.js "aws-fundamentals") (Uri.js "AWS & Co. 100% 'Pro' #1" ++ [233; 0xD83D; 0xDE00])%Z = Some url /\
    Uri.parseContactUrlParams url =
      Some {| Uri.product := Some (Uri.js "aws-fundamentals");
              Uri.subject := Some (Uri.js "Training Inquiry: " ++ (Uri.js "AWS & Co. 100% 'Pro' #1" ++ [233; 0xD83D; 0xDE00])%Z) |} /\
    option_map Uri.prePopulateContactForm (Uri.parseContactUrlParams url) =
      Some {| Uri.prefill_subject := Uri.js "Training Inquiry: " ++ (Uri.js "AWS & Co. 100% 'Pro' #1" ++ [233; 0xD83D; 0xDE00])%Z;
              Uri.productHidden := Uri.js "aws-fundamentals" |}.
Proof.
  split; [reflexivity|]. split; [reflexivity|].
  exact (contact_url_round_trip (Uri.js "aws-fundamentals")
           (Uri.js "AWS & Co. 100% 'Pro' #1" ++ [233; 0xD83D; 0xDE00])%Z eq_refl eq_refl).
Defined.

Lemma buildContactUrl_throws_witness :
  Forall (fun c => (0 <= c <= 0xFFFF)%Z) ([0xD83D]%Z ++ Uri.js "x") /\
  (Uri.buildContactUrl [0xD83D]%Z (Uri.js "x") = None <->
   Uri.well_formed_utf16 [0xD83D]%Z = false \/ Uri.well_formed_utf16 (Uri.js "x") = false).
Proof.
  assert (H : Forall (fun c => (0 <= c <= 0xFFFF)%Z) ([0xD83D]%Z ++ Uri.js "x"))
    by (apply Forall_forall; intros c Hc; vm_compute in Hc;
        repeat (destruct Hc as [<-|Hc]; [lia|]); destruct Hc).
  split; [exact H|]. exact (buildContactUrl_throws [0xD83D]%Z (Uri.js "x") H).
Defined.

Section NavigationFacts.

Lemma starts_with_l_app (q s t : list ascii) :
  starts_with_l q s = true -> starts_with_l q (s ++ t) = true.
Proof.
  revert s; induction q as [|x q IH]; intros s H; [reflexivity|].
  destruct s as [|y s]; [discriminate|]. cbn in H |- *.
  apply andb_true_iff in H as [Hx H]. now rewrite Hx, IH.
Qed.

Lemma starts_with_l_snoc (q s : list ascii) (c : ascii) :
  starts_with_l q (s ++ [c]) = true -> starts_with_l q s = true \/ q = (s ++ [c])%list.
Proof.
  revert s; induction q as [|x q IH]; intros s H; [now left|].
  destruct s as [|y s]; cbn in H |- *.
  - apply andb_true_iff in H as [Hx H]. apply Ascii.eqb_eq in Hx. subst x.
    destruct q; [now right|discriminate].
  - apply andb_true_iff in H as [Hx H]. rewrite Hx. apply Ascii.eqb_eq in Hx. subst x.
    destruct (IH s H) as [H' | ->]; [left; exact H'|right; reflexivity].
Qed.

Lemma starts_with_l_snoc_eq (q s : list ascii) (c : ascii) :
  q <> (s ++ [c])%list -> starts_with_l q (s ++ [c]) = starts_with_l q s.
Proof.
  intros Hq. destruct (starts_with_l q s) eqn:E.
  - now apply starts_with_l_app.
  - destruct (starts_with_l q (s ++ [c])) eqn:E'; [|reflexivity].
    destruct (starts_with_l_snoc q s c E') as [H|H]; congruence.
Qed.

Lemma includes_l_snoc (s q : list ascii) (c : ascii) :
  q <> [] -> (forall r, q <> (r ++ [c])%list) -> includes_l (s ++ [c]) q = includes_l s q.
Proof.
  intros Hne Hq. induction s as [|x s IH].
  - pose proof (starts_with_l_snoc_eq q [] c (Hq [])) as E. cbn [app] in E.
    cbn [app includes_l]. rewrite E. destruct q; [congruence|reflexivity].
  - change ((x :: s) ++ [c])%list with (x :: (s ++ [c])).
    cbn [includes_l]. rewrite IH.
    change (x :: (s ++ [c]))%list with ((x :: s) ++ [c])%list.
    now rewrite (starts_with_l_snoc_eq q (x :: s) c (Hq (x :: s))).
Qed.

Lemma strip_trailing_slash_snoc (path : string) :
  Navigation.strip_trailing_slash (path ++ "/") = path.
Proof.
  unfold Navigation.strip_trailing_slash.
  rewrite list_ascii_of_string_app. cbn [list_ascii_of_string].
  rewrite rev_app_distr. cbn [rev app]. rewrite rev_involutive.
  apply string_of_list_ascii_of_string.
Qed.

Lemma strip_trailing_slash_none (path : string) :
  (forall r, path <> (r ++ "/")%string) -> Navigation.strip_trailing_slash path = path.
Proof.
  intros Hno. unfold Navigation.strip_trailing_slash.
  destruct (rev (list_ascii_of_string path)) as [|c r] eqn:E;
    [apply string_of_list_ascii_of_string|].
  destruct (Ascii.eqb_spec c "/"%char) as [ -> | Hc]; [|apply string_of_list_ascii_of_string].
  exfalso. apply (Hno (string_of_list_ascii (rev r))).
  rewrite <- (string_of_list_ascii_of_string path).
  rewrite <- (rev_involutive (list_ascii_of_string path)), E.
  cbn [rev]. generalize (rev r). intros l. induction l as [|a l IH]; [reflexivity|].
  cbn. now rewrite IH.
Qed.

Lemma no_slash_end_list (path : string) :
  (forall r, path <> (r ++ "/")%string) ->
  forall r, list_ascii_of_string path <> (r ++ ["/"%char])%list.
Proof.
  intros Hno r E. apply (Hno (string_of_list_ascii r)).
  rewrite <- (string_of_list_ascii_of_string path), E.
  clear. induction r as [|a r IH]; [reflexivity|]. cbn. now rewrite IH.
Qed.

End NavigationFacts.

(** A path that does not end in [/] is judged by [isValidInternalPath]
    the same with a [/] appended: the trailing slash is ignored. *)
Theorem isValidInternalPath_trailing_slash (path : string)
  (Hno : forall r, path <> (r ++ "/")%string) :
  Navigation.isValidInternalPath (path ++ "/") = Navigation.isValidInternalPath path.
Proof.
  pose proof (no_slash_end_list path Hno) as Hl.
  unfold Navigation.isValidInternalPath, starts_with, includes.
  rewrite strip_trailing_slash_snoc, strip_trailing_slash_none by exact Hno.
  rewrite list_ascii_of_string_app. cbn [list_ascii_of_string].
  set (l := list_ascii_of_string path) in *.
  rewrite !starts_with_l_snoc_eq.
  - rewrite includes_l_snoc; [reflexivity|discriminate|].
    intros r E. apply (f_equal (@rev ascii)) in E. rewrite rev_app_distr in E. discriminate E.
  - intros E. apply (f_equal (@rev ascii)) in E. rewrite rev_app_distr in E. discriminate E.
  - intros E.
    destruct (app_inj_tail (list_ascii_of_string "https:/") l "/"%char "/"%char E) as [E' _].
    clear E. rename E' into E. apply (Hl (list_ascii_of_string "https:")). rewrite <- E.
    reflexivity.
  - intros E.
    destruct (app_inj_tail (list_ascii_of_string "http:/") l "/"%char "/"%char E) as [E' _].
    clear E. rename E' into E. apply (Hl (list_ascii_of_string "http:")). rewrite <- E.
    reflexivity.
Qed.

Lemma isValidInternalPath_trailing_slash_witness :
  (forall r, "/about"%string <> (r ++ "/")%string) /\
  Navigation.isValidInternalPath ("/about" ++ "/") = Navigation.isValidInternalPath "/about".
Proof.
  assert (H : forall r, "/about"%string <> (r ++ "/")%string).
  { intros r E. apply (f_equal (fun s => rev (list_ascii_of_string s))) in E.
    rewrite list_ascii_of_string_app, rev_app_distr in E. discriminate E. }
  split; [exact H|]. exact (isValidInternalPath_trailing_slash "/about" H).
Defined.
